(** * Stock analysis web client and batch job life cycle

    A shallow embedding of the client scripts [static/js/single.js] and
    [static/js/batch.js], followed by a model of the batch job store and
    runner that the scripts talk to.

    JavaScript strings are sequences of UTF-16 code units; they are kept
    here as [list N], one number per code unit, so that [length], the
    [\d] / [\D] character classes and [trim] mean what they mean in the
    scripts. *)

From Stdlib Require Import Ascii String QArith.
From stdpp Require Import gmap list strings.
From Equations Require Import Equations.

(** ** JavaScript strings and values *)

Module Js.

Abbreviation jsstring := (list N).

(** An ASCII literal as code units. *)
Definition lit (s : string) : jsstring :=
  N_of_ascii <$> list_ascii_of_string s.
Arguments lit s%_string.

(** A string is truthy unless it is empty. *)
Definition truthy_str (s : jsstring) : bool :=
  match s with [] => false | _ => true end.

(** An optional field ([undefined] / [null] when absent) is truthy when
    it is present and non-empty. *)
Definition truthy_opt (o : option jsstring) : bool :=
  match o with Some s => truthy_str s | None => false end.

(** [o || dflt] on an optional string field. *)
Definition or_str (o : option jsstring) (dflt : jsstring) : jsstring :=
  match o with
  | Some s => if truthy_str s then s else dflt
  | None => dflt
  end.

(** [\d] without the unicode flag: the ten ASCII digits. *)
Definition is_digit (c : N) : bool := ((48 <=? c) && (c <=? 57))%N.

(** [/^\d{0,6}$/.test(value)] *)
Definition test_digits_0_6 (value : jsstring) : bool :=
  forallb is_digit value && (length value <=? 6).

(** [value.replace(/\D/g, '')] *)
Definition strip_non_digits (value : jsstring) : jsstring :=
  filter (fun c => is_digit c = true) value.

(** The code units removed by [String.prototype.trim]: WhiteSpace and
    LineTerminator. *)
Definition is_space (c : N) : bool :=
  ((c =? 9) || (c =? 10) || (c =? 11) || (c =? 12) || (c =? 13) ||
   (c =? 32) || (c =? 160) || (c =? 5760) ||
   ((8192 <=? c) && (c <=? 8202)) ||
   (c =? 8232) || (c =? 8233) || (c =? 8239) || (c =? 8287) ||
   (c =? 12288) || (c =? 65279))%N.

Fixpoint trim_start (s : jsstring) : jsstring :=
  match s with
  | c :: s' => if is_space c then trim_start s' else s
  | [] => []
  end.

Definition trim (s : jsstring) : jsstring :=
  reverse (trim_start (reverse (trim_start s))).

(** [s.endsWith(suffix)] *)
Definition endsWith (s suffix : jsstring) : bool :=
  bool_decide (drop (length s - length suffix) s = suffix).

(** The values a property read on a plain object literal can produce in
    these scripts: a string, a function or object inherited from
    [Object.prototype] (named by its property key), or [undefined]. *)
Inductive jsval :=
  | JStr (s : jsstring)
  | JBuiltin (key : jsstring)
  | JUndefined.

Definition truthy (v : jsval) : bool :=
  match v with
  | JStr s => truthy_str s
  | JBuiltin _ => true
  | JUndefined => false
  end.

(** [a || b] *)
Definition or_val (a b : jsval) : jsval := if truthy a then a else b.

(** The property keys every object literal inherits from
    [Object.prototype]. *)
Definition object_prototype_keys : list jsstring :=
  [ lit "constructor"; lit "__defineGetter__"; lit "__defineSetter__";
    lit "hasOwnProperty"; lit "__lookupGetter__"; lit "__lookupSetter__";
    lit "isPrototypeOf"; lit "propertyIsEnumerable"; lit "toString";
    lit "valueOf"; lit "__proto__"; lit "toLocaleString" ].

(** [obj[key]] for an object literal whose own properties are [own]:
    own properties first, then the prototype chain. *)
Definition get_prop (own : gmap jsstring jsstring) (key : jsstring) : jsval :=
  match own !! key with
  | Some v => JStr v
  | None =>
      if bool_decide (key ∈ object_prototype_keys) then JBuiltin key
      else JUndefined
  end.

End Js.

(** ** single.js : the single analysis page *)

Module Single.
Import Js.

(** '6자리 종목코드를 입력해주세요.' *)
Definition msg_need_six_digits : jsstring :=
  [54; 51088; 47532; 32; 51333; 47785; 53076; 46300; 47484; 32; 51077;
   47141; 54644; 51452; 49464; 50836; 46]%N.

(** The [input] listener of the stock code field.  [value] is the text
    of the field when the event fires; the result is the text the
    handler leaves in the field and whether it blurred the field.  The
    length test reads [value], the text before the replacement. *)
Definition on_input (value : jsstring) : jsstring * bool :=
  let value' :=
    if truthy_str value && negb (test_digits_0_6 value)
    then strip_non_digits value
    else value in
  (value', bool_decide (length value = 6)).

(** The request body of [POST /api/analyze/single/chart]. *)
Record SingleBody := { stock_code : jsstring; chart_type : jsstring }.

Inductive Effect :=
  | ShowError (message : jsstring)
  | HideResult
  | HideError
  | SetLoading (on : bool)
  | Fetch (body : SingleBody).

(** The [submit] listener up to its first [await]: [field] is the text
    of the stock code field and [chartType] the selected chart type. *)
Definition on_submit (field chartType : jsstring) : list Effect :=
  let stockCode := trim field in
  if negb (truthy_str stockCode) || negb (bool_decide (length stockCode = 6))
  then [ShowError msg_need_six_digits]
  else [HideResult; HideError; SetLoading true;
        Fetch {| stock_code := stockCode; chart_type := chartType |}].

(** The text of the field after the user's successive edits, the field
    starting out empty: each edit fires [input] with the whole new text,
    and the handler may rewrite it. *)
Definition field_after (edits : list jsstring) : jsstring :=
  foldl (fun _ value => (on_input value).1) [] edits.

Definition sends_request (effs : list Effect) : Prop :=
  ∃ body, Fetch body ∈ effs.

Definition six_digits (s : jsstring) : Prop :=
  length s = 6 ∧ Forall (fun c => is_digit c = true) s.

End Single.

(** ** batch.js : the batch analysis page *)

Module Batch.
Import Js.

(** *** Message literals *)

(** '파일 크기가 1MB를 초과합니다.' *)
Definition msg_file_too_large : jsstring :=
  [54028; 51068; 32; 53356; 44592; 44032; 32; 49; 77; 66; 47484; 32;
   52488; 44284; 54633; 45768; 45796; 46]%N.

(** '텍스트 파일(.txt)만 업로드 가능합니다.' *)
Definition msg_text_only : jsstring :=
  [53581; 49828; 53944; 32; 54028; 51068; 40; 46; 116; 120; 116; 41;
   47564; 32; 50629; 47196; 46300; 32; 44032; 45733; 54633; 45768;
   45796; 46]%N.

(** '대량 분석 시작 중 오류가 발생했습니다.' *)
Definition msg_batch_start_failed : jsstring :=
  [45824; 47049; 32; 48516; 49437; 32; 49884; 51089; 32; 51473; 32;
   50724; 47448; 44032; 32; 48156; 49373; 54664; 49845; 45768; 45796;
   46]%N.

(** '상태 확인 오류: ' *)
Definition msg_status_error_prefix : jsstring :=
  [49345; 53468; 32; 54869; 51064; 32; 50724; 47448; 58; 32]%N.

(** '분석 실패: ' *)
Definition msg_analysis_failed_prefix : jsstring :=
  [48516; 49437; 32; 49892; 54056; 58; 32]%N.

(** '알 수 없는 오류' *)
Definition msg_unknown_error : jsstring :=
  [50508; 32; 49688; 32; 50630; 45716; 32; 50724; 47448]%N.

(** '결과 조회 오류: ' *)
Definition msg_results_error_prefix : jsstring :=
  [44208; 44284; 32; 51312; 54924; 32; 50724; 47448; 58; 32]%N.

(** '결과를 불러오는 중 오류가 발생했습니다.' *)
Definition msg_results_load_failed : jsstring :=
  [44208; 44284; 47484; 32; 48520; 47084; 50724; 45716; 32; 51473; 32;
   50724; 47448; 44032; 32; 48156; 49373; 54664; 49845; 45768; 45796;
   46]%N.

(** *** getStatusText *)

(** '분석 중', '완료', '실패', '대기 중' *)
Definition label_running : jsstring := [48516; 49437; 32; 51473]%N.
Definition label_completed : jsstring := [50756; 47308]%N.
Definition label_failed : jsstring := [49892; 54056]%N.
Definition label_waiting : jsstring := [45824; 44592; 32; 51473]%N.

Definition statusMap : gmap jsstring jsstring :=
  <[lit "waiting" := label_waiting]>
  (<[lit "failed" := label_failed]>
  (<[lit "completed" := label_completed]>
  (<[lit "running" := label_running]> ∅))).

Definition getStatusText (status : jsstring) : jsval :=
  or_val (get_prop statusMap status) (JStr status).

(** *** Data exchanged with the page *)

Record File := { f_size : N; f_type : jsstring; f_name : jsstring }.

(** The JSON object of [GET /api/batch/status/<id>], field by field;
    an absent field is [None]. *)
Record StatusObj := {
  st_error : option jsstring;
  st_status : jsstring;
  st_chart_type : option jsstring;
  st_progress : option Q;
  st_completed : option N;
  st_failed : option N;
  st_total : option N;
  st_start_time : option jsstring
}.

(** The JSON object answered to [POST /api/analyze/batch]. *)
Record SubmitData := {
  sd_error : option jsstring;
  sd_batch_id : option jsstring
}.

Record ResultItem := { ri_stock_code : jsstring; ri_error : option jsstring }.

(** The JSON object of [GET /api/batch/results/<id>]. *)
Record ResultsData := {
  rd_error : option jsstring;
  rd_status : option StatusObj;
  rd_results : option (list ResultItem)
}.

(** How a [fetch] followed by [response.json()] settles: either one of
    the two promises rejects (network failure, body that is not JSON),
    or a body is parsed; [ok] is [response.ok]. *)
Inductive Response (A : Type) :=
  | Rejected (message : jsstring)
  | Parsed (ok : bool) (data : A).
Arguments Rejected {A} message.
Arguments Parsed {A} ok data.

Inductive Request :=
  | ReqSubmit (file : option File)
  | ReqStatus (id : jsstring)
  | ReqResults (id : option jsstring).

#[global] Instance File_eq_dec : EqDecision File.
Proof. solve_decision. Defined.

#[global] Instance Request_eq_dec : EqDecision Request.
Proof. solve_decision. Defined.

(** What [updateStatusDisplay] writes into the page. *)
Record StatusDisplay := {
  d_batchId : option jsstring;
  d_chart_type : jsstring;
  d_progress : Q;
  d_completed : N;
  d_failed : N;
  d_total : N;
  d_start_time : option jsstring;
  d_status_text : jsval
}.

Inductive Preview :=
  | Placeholder
  | FileSelected (file : File) (content : jsstring).

Inductive LogEntry :=
  | LogBatchError (message : jsstring)
  | LogStatusError (message : jsstring)
  | LogResultsError (message : jsstring).

(** *** The page

    The two variables of the script, the browser's table of repeating
    timers and of fetches awaiting their answer, and the parts of the
    document the script writes. *)
Record Page := {
  batchId : option jsstring;
  statusInterval : option nat;
  timers : gset nat;
  next_timer : nat;
  pending : list (nat * Request);
  next_request : nat;
  sent : list Request;
  readers : list File;
  errorMessage : jsstring;
  errorVisible : bool;
  statusVisible : bool;
  display : option StatusDisplay;
  resultsVisible : bool;
  downloadBound : bool;
  viewBound : option ResultsData;
  loading : bool;
  fileInput : option File;
  filePreview : Preview;
  console : list LogEntry
}.

(** The page once [DOMContentLoaded] has run the script: both variables
    [null], nothing scheduled, nothing sent. Timer ids start at 1. *)
Definition init : Page := {|
  batchId := None; statusInterval := None;
  timers := ∅; next_timer := 1;
  pending := []; next_request := 0; sent := []; readers := [];
  errorMessage := []; errorVisible := false; statusVisible := false;
  display := None; resultsVisible := false; downloadBound := false;
  viewBound := None; loading := false; fileInput := None;
  filePreview := Placeholder; console := []
|}.

(** *** Assignments to one variable or one part of the page *)

Definition set_batchId (v : option jsstring) (p : Page) : Page :=
  {| batchId := v; statusInterval := statusInterval p; timers := timers p;
     next_timer := next_timer p; pending := pending p;
     next_request := next_request p; sent := sent p; readers := readers p;
     errorMessage := errorMessage p; errorVisible := errorVisible p;
     statusVisible := statusVisible p; display := display p;
     resultsVisible := resultsVisible p; downloadBound := downloadBound p;
     viewBound := viewBound p; loading := loading p;
     fileInput := fileInput p; filePreview := filePreview p;
     console := console p |}.

Definition set_statusInterval (v : option nat) (p : Page) : Page :=
  {| batchId := batchId p; statusInterval := v; timers := timers p;
     next_timer := next_timer p; pending := pending p;
     next_request := next_request p; sent := sent p; readers := readers p;
     errorMessage := errorMessage p; errorVisible := errorVisible p;
     statusVisible := statusVisible p; display := display p;
     resultsVisible := resultsVisible p; downloadBound := downloadBound p;
     viewBound := viewBound p; loading := loading p;
     fileInput := fileInput p; filePreview := filePreview p;
     console := console p |}.

Definition set_timers (v : gset nat) (p : Page) : Page :=
  {| batchId := batchId p; statusInterval := statusInterval p; timers := v;
     next_timer := next_timer p; pending := pending p;
     next_request := next_request p; sent := sent p; readers := readers p;
     errorMessage := errorMessage p; errorVisible := errorVisible p;
     statusVisible := statusVisible p; display := display p;
     resultsVisible := resultsVisible p; downloadBound := downloadBound p;
     viewBound := viewBound p; loading := loading p;
     fileInput := fileInput p; filePreview := filePreview p;
     console := console p |}.

Definition set_next_timer (v : nat) (p : Page) : Page :=
  {| batchId := batchId p; statusInterval := statusInterval p;
     timers := timers p; next_timer := v; pending := pending p;
     next_request := next_request p; sent := sent p; readers := readers p;
     errorMessage := errorMessage p; errorVisible := errorVisible p;
     statusVisible := statusVisible p; display := display p;
     resultsVisible := resultsVisible p; downloadBound := downloadBound p;
     viewBound := viewBound p; loading := loading p;
     fileInput := fileInput p; filePreview := filePreview p;
     console := console p |}.

Definition set_pending (v : list (nat * Request)) (p : Page) : Page :=
  {| batchId := batchId p; statusInterval := statusInterval p;
     timers := timers p; next_timer := next_timer p; pending := v;
     next_request := next_request p; sent := sent p; readers := readers p;
     errorMessage := errorMessage p; errorVisible := errorVisible p;
     statusVisible := statusVisible p; display := display p;
     resultsVisible := resultsVisible p; downloadBound := downloadBound p;
     viewBound := viewBound p; loading := loading p;
     fileInput := fileInput p; filePreview := filePreview p;
     console := console p |}.

Definition set_next_request (v : nat) (p : Page) : Page :=
  {| batchId := batchId p; statusInterval := statusInterval p;
     timers := timers p; next_timer := next_timer p; pending := pending p;
     next_request := v; sent := sent p; readers := readers p;
     errorMessage := errorMessage p; errorVisible := errorVisible p;
     statusVisible := statusVisible p; display := display p;
     resultsVisible := resultsVisible p; downloadBound := downloadBound p;
     viewBound := viewBound p; loading := loading p;
     fileInput := fileInput p; filePreview := filePreview p;
     console := console p |}.

Definition set_sent (v : list Request) (p : Page) : Page :=
  {| batchId := batchId p; statusInterval := statusInterval p;
     timers := timers p; next_timer := next_timer p; pending := pending p;
     next_request := next_request p; sent := v; readers := readers p;
     errorMessage := errorMessage p; errorVisible := errorVisible p;
     statusVisible := statusVisible p; display := display p;
     resultsVisible := resultsVisible p; downloadBound := downloadBound p;
     viewBound := viewBound p; loading := loading p;
     fileInput := fileInput p; filePreview := filePreview p;
     console := console p |}.

Definition set_readers (v : list File) (p : Page) : Page :=
  {| batchId := batchId p; statusInterval := statusInterval p;
     timers := timers p; next_timer := next_timer p; pending := pending p;
     next_request := next_request p; sent := sent p; readers := v;
     errorMessage := errorMessage p; errorVisible := errorVisible p;
     statusVisible := statusVisible p; display := display p;
     resultsVisible := resultsVisible p; downloadBound := downloadBound p;
     viewBound := viewBound p; loading := loading p;
     fileInput := fileInput p; filePreview := filePreview p;
     console := console p |}.

Definition set_errorMessage (v : jsstring) (p : Page) : Page :=
  {| batchId := batchId p; statusInterval := statusInterval p;
     timers := timers p; next_timer := next_timer p; pending := pending p;
     next_request := next_request p; sent := sent p; readers := readers p;
     errorMessage := v; errorVisible := errorVisible p;
     statusVisible := statusVisible p; display := display p;
     resultsVisible := resultsVisible p; downloadBound := downloadBound p;
     viewBound := viewBound p; loading := loading p;
     fileInput := fileInput p; filePreview := filePreview p;
     console := console p |}.

Definition set_errorVisible (v : bool) (p : Page) : Page :=
  {| batchId := batchId p; statusInterval := statusInterval p;
     timers := timers p; next_timer := next_timer p; pending := pending p;
     next_request := next_request p; sent := sent p; readers := readers p;
     errorMessage := errorMessage p; errorVisible := v;
     statusVisible := statusVisible p; display := display p;
     resultsVisible := resultsVisible p; downloadBound := downloadBound p;
     viewBound := viewBound p; loading := loading p;
     fileInput := fileInput p; filePreview := filePreview p;
     console := console p |}.

Definition set_statusVisible (v : bool) (p : Page) : Page :=
  {| batchId := batchId p; statusInterval := statusInterval p;
     timers := timers p; next_timer := next_timer p; pending := pending p;
     next_request := next_request p; sent := sent p; readers := readers p;
     errorMessage := errorMessage p; errorVisible := errorVisible p;
     statusVisible := v; display := display p;
     resultsVisible := resultsVisible p; downloadBound := downloadBound p;
     viewBound := viewBound p; loading := loading p;
     fileInput := fileInput p; filePreview := filePreview p;
     console := console p |}.

Definition set_display (v : option StatusDisplay) (p : Page) : Page :=
  {| batchId := batchId p; statusInterval := statusInterval p;
     timers := timers p; next_timer := next_timer p; pending := pending p;
     next_request := next_request p; sent := sent p; readers := readers p;
     errorMessage := errorMessage p; errorVisible := errorVisible p;
     statusVisible := statusVisible p; display := v;
     resultsVisible := resultsVisible p; downloadBound := downloadBound p;
     viewBound := viewBound p; loading := loading p;
     fileInput := fileInput p; filePreview := filePreview p;
     console := console p |}.

Definition set_resultsVisible (v : bool) (p : Page) : Page :=
  {| batchId := batchId p; statusInterval := statusInterval p;
     timers := timers p; next_timer := next_timer p; pending := pending p;
     next_request := next_request p; sent := sent p; readers := readers p;
     errorMessage := errorMessage p; errorVisible := errorVisible p;
     statusVisible := statusVisible p; display := display p;
     resultsVisible := v; downloadBound := downloadBound p;
     viewBound := viewBound p; loading := loading p;
     fileInput := fileInput p; filePreview := filePreview p;
     console := console p |}.

Definition set_downloadBound (v : bool) (p : Page) : Page :=
  {| batchId := batchId p; statusInterval := statusInterval p;
     timers := timers p; next_timer := next_timer p; pending := pending p;
     next_request := next_request p; sent := sent p; readers := readers p;
     errorMessage := errorMessage p; errorVisible := errorVisible p;
     statusVisible := statusVisible p; display := display p;
     resultsVisible := resultsVisible p; downloadBound := v;
     viewBound := viewBound p; loading := loading p;
     fileInput := fileInput p; filePreview := filePreview p;
     console := console p |}.

Definition set_viewBound (v : option ResultsData) (p : Page) : Page :=
  {| batchId := batchId p; statusInterval := statusInterval p;
     timers := timers p; next_timer := next_timer p; pending := pending p;
     next_request := next_request p; sent := sent p; readers := readers p;
     errorMessage := errorMessage p; errorVisible := errorVisible p;
     statusVisible := statusVisible p; display := display p;
     resultsVisible := resultsVisible p; downloadBound := downloadBound p;
     viewBound := v; loading := loading p; fileInput := fileInput p;
     filePreview := filePreview p; console := console p |}.

Definition set_loading (v : bool) (p : Page) : Page :=
  {| batchId := batchId p; statusInterval := statusInterval p;
     timers := timers p; next_timer := next_timer p; pending := pending p;
     next_request := next_request p; sent := sent p; readers := readers p;
     errorMessage := errorMessage p; errorVisible := errorVisible p;
     statusVisible := statusVisible p; display := display p;
     resultsVisible := resultsVisible p; downloadBound := downloadBound p;
     viewBound := viewBound p; loading := v; fileInput := fileInput p;
     filePreview := filePreview p; console := console p |}.

Definition set_fileInput (v : option File) (p : Page) : Page :=
  {| batchId := batchId p; statusInterval := statusInterval p;
     timers := timers p; next_timer := next_timer p; pending := pending p;
     next_request := next_request p; sent := sent p; readers := readers p;
     errorMessage := errorMessage p; errorVisible := errorVisible p;
     statusVisible := statusVisible p; display := display p;
     resultsVisible := resultsVisible p; downloadBound := downloadBound p;
     viewBound := viewBound p; loading := loading p; fileInput := v;
     filePreview := filePreview p; console := console p |}.

Definition set_filePreview (v : Preview) (p : Page) : Page :=
  {| batchId := batchId p; statusInterval := statusInterval p;
     timers := timers p; next_timer := next_timer p; pending := pending p;
     next_request := next_request p; sent := sent p; readers := readers p;
     errorMessage := errorMessage p; errorVisible := errorVisible p;
     statusVisible := statusVisible p; display := display p;
     resultsVisible := resultsVisible p; downloadBound := downloadBound p;
     viewBound := viewBound p; loading := loading p;
     fileInput := fileInput p; filePreview := v; console := console p |}.

Definition set_console (v : list LogEntry) (p : Page) : Page :=
  {| batchId := batchId p; statusInterval := statusInterval p;
     timers := timers p; next_timer := next_timer p; pending := pending p;
     next_request := next_request p; sent := sent p; readers := readers p;
     errorMessage := errorMessage p; errorVisible := errorVisible p;
     statusVisible := statusVisible p; display := display p;
     resultsVisible := resultsVisible p; downloadBound := downloadBound p;
     viewBound := viewBound p; loading := loading p;
     fileInput := fileInput p; filePreview := filePreview p;
     console := v |}.

(** *** Helpers of the script and of the browser *)

(** [showError(message)] *)
Definition showError (message : jsstring) (p : Page) : Page :=
  set_errorVisible true (set_errorMessage message p).

(** [hideError()] *)
Definition hideError (p : Page) : Page := set_errorVisible false p.

(** [setLoading(loading)] *)
Definition setLoading (on : bool) (p : Page) : Page := set_loading on p.

(** [showBatchStatus()] *)
Definition showBatchStatus (p : Page) : Page := set_statusVisible true p.

(** [console.error(...)] *)
Definition log (e : LogEntry) (p : Page) : Page :=
  set_console (console p ++ [e]) p.

(** [if (statusInterval)]: [null] is falsy, and so is the number 0. *)
Definition truthy_timer (t : option nat) : bool :=
  match t with Some i => negb (i =? 0) | None => false end.

(** [if (batchId)] *)
Definition truthy_id (b : option jsstring) : bool := truthy_opt b.

(** [clearInterval(t)]: cancels the timer with that id, if there is
    one; [clearInterval(null)] does nothing. *)
Definition clearInterval (t : option nat) (p : Page) : Page :=
  match t with
  | Some i => set_timers (timers p ∖ {[i]}) p
  | None => p
  end.

(** [setInterval(checkBatchStatus, 2000)]: schedules a repeating timer
    and returns its id, a number the browser has not handed out yet. *)
Definition setInterval (p : Page) : Page * nat :=
  (set_next_timer (S (next_timer p))
     (set_timers ({[next_timer p]} ∪ timers p) p),
   next_timer p).

(** [fetch(url)]: the request leaves and its answer is awaited. *)
Definition fetch (rq : Request) (p : Page) : Page :=
  set_sent (sent p ++ [rq])
    (set_next_request (S (next_request p))
       (set_pending (pending p ++ [(next_request p, rq)]) p)).

(** [startStatusCheck()] *)
Definition startStatusCheck (p : Page) : Page :=
  let p1 :=
    if truthy_timer (statusInterval p)
    then clearInterval (statusInterval p) p
    else p in
  let '(p2, t) := setInterval p1 in
  set_statusInterval (Some t) p2.

(** [updateStatusDisplay(status)] *)
Definition updateStatusDisplay (status : StatusObj) (p : Page) : Page :=
  set_display
    (Some {| d_batchId := batchId p;
             d_chart_type := or_str (st_chart_type status) (lit "N/A");
             d_progress := default 0%Q (st_progress status);
             d_completed := default 0%N (st_completed status);
             d_failed := default 0%N (st_failed status);
             d_total := default 0%N (st_total status);
             d_start_time := st_start_time status;
             d_status_text := getStatusText (st_status status) |}) p.

(** [showBatchResults()] up to its [await]: the results of the job
    named by [batchId] as it is now are requested. *)
Definition showBatchResults (p : Page) : Page :=
  fetch (ReqResults (batchId p)) p.

(** [showBatchResults()] once its request has settled. *)
Definition showBatchResults_resume (o : Response ResultsData) (p : Page)
  : Page :=
  match o with
  | Rejected m => showError msg_results_load_failed (log (LogResultsError m) p)
  | Parsed _ data =>
      if truthy_opt (rd_error data)
      then showError (msg_results_error_prefix ++ default [] (rd_error data)) p
      else set_viewBound (Some data)
             (set_downloadBound true (set_resultsVisible true p))
  end.

(** [checkBatchStatus()] up to its [await]: what a timer tick runs. *)
Definition checkBatchStatus (p : Page) : Page :=
  if negb (truthy_id (batchId p)) then p
  else fetch (ReqStatus (default [] (batchId p))) p.

(** [checkBatchStatus()] once its request has settled. *)
Definition checkBatchStatus_resume (o : Response StatusObj) (p : Page)
  : Page :=
  match o with
  | Rejected m => log (LogStatusError m) p
  | Parsed _ status =>
      if truthy_opt (st_error status) then
        showError (msg_status_error_prefix ++ default [] (st_error status))
          (clearInterval (statusInterval p) p)
      else
        let p1 := updateStatusDisplay status p in
        if bool_decide (st_status status = lit "completed") then
          showBatchResults (clearInterval (statusInterval p1) p1)
        else if bool_decide (st_status status = lit "failed") then
          showError
            (msg_analysis_failed_prefix
               ++ or_str (st_error status) msg_unknown_error)
            (clearInterval (statusInterval p1) p1)
        else p1
  end.

(** The [submit] listener up to its [await]. *)
Definition on_submit (p : Page) : Page :=
  fetch (ReqSubmit (fileInput p)) (setLoading true (hideError p)).

(** The [catch] and [finally] blocks of the [submit] listener. *)
Definition submit_failed (message : jsstring) (p : Page) : Page :=
  setLoading false (showError message (log (LogBatchError message) p)).

(** The [submit] listener once its request has settled. *)
Definition on_submit_resume (o : Response SubmitData) (p : Page) : Page :=
  match o with
  | Rejected m => submit_failed m p
  | Parsed ok data =>
      if negb ok then
        submit_failed (or_str (sd_error data) msg_batch_start_failed) p
      else if truthy_opt (sd_error data) then
        submit_failed (default [] (sd_error data)) p
      else
        setLoading false
          (startStatusCheck
             (showBatchStatus (set_batchId (sd_batch_id data) p)))
  end.

(** The [change] listener of the file input; [f] is [e.target.files[0]]. *)
Definition on_file_change (f : option File) (p : Page) : Page :=
  match f with
  | Some file =>
      if (1024 * 1024 <? f_size file)%N then
        set_fileInput None (showError msg_file_too_large p)
      else if negb (bool_decide (f_type file = lit "text/plain"))
              && negb (endsWith (f_name file) (lit ".txt")) then
        set_fileInput None (showError msg_text_only p)
      else set_readers (readers p ++ [file]) p
  | None => p
  end.

(** [reader.onload]: the preview of the file that was read. *)
Definition on_reader_load (file : File) (content : jsstring) (p : Page)
  : Page :=
  set_filePreview (FileSelected file content) p.

(** The [reset] listener of the form. *)
Definition on_reset (p : Page) : Page :=
  let p1 := set_statusVisible false (hideError (set_filePreview Placeholder p)) in
  let p2 :=
    if truthy_timer (statusInterval p1)
    then set_statusInterval None (clearInterval (statusInterval p1) p1)
    else p1 in
  set_batchId None p2.

(** The [beforeunload] listener of the window. *)
Definition on_beforeunload (p : Page) : Page :=
  if truthy_timer (statusInterval p)
  then clearInterval (statusInterval p) p
  else p.

(** *** The event loop

    What the browser can deliver to the page.  A timer fires only while
    it is scheduled; an answer arrives only for a request that awaits
    one, and is of the kind of that request. *)
Inductive Answer :=
  | AnsSubmit (o : Response SubmitData)
  | AnsStatus (o : Response StatusObj)
  | AnsResults (o : Response ResultsData).

Inductive Event :=
  | EvFileChange (f : option File)
  | EvReaderLoad (content : jsstring)
  | EvSubmit
  | EvTick (t : nat)
  | EvAnswer (r : nat) (a : Answer)
  | EvReset
  | EvUnload.

Fixpoint find_request (r : nat) (l : list (nat * Request)) : option Request :=
  match l with
  | (r', rq) :: l' => if r' =? r then Some rq else find_request r l'
  | [] => None
  end.

Definition drop_request (r : nat) (l : list (nat * Request))
  : list (nat * Request) :=
  filter (fun e => e.1 ≠ r) l.

Definition resume (rq : Request) (a : Answer) (p : Page) : option Page :=
  match rq, a with
  | ReqSubmit _, AnsSubmit o => Some (on_submit_resume o p)
  | ReqStatus _, AnsStatus o => Some (checkBatchStatus_resume o p)
  | ReqResults _, AnsResults o => Some (showBatchResults_resume o p)
  | _, _ => None
  end.

Definition step (p : Page) (e : Event) : option Page :=
  match e with
  | EvFileChange f => Some (on_file_change f (set_fileInput f p))
  | EvReaderLoad content =>
      match readers p with
      | file :: rest => Some (on_reader_load file content (set_readers rest p))
      | [] => None
      end
  | EvSubmit => Some (on_submit p)
  | EvTick t =>
      if bool_decide (t ∈ timers p) then Some (checkBatchStatus p) else None
  | EvAnswer r a =>
      match find_request r (pending p) with
      | Some rq => resume rq a (set_pending (drop_request r (pending p)) p)
      | None => None
      end
  | EvReset => Some (set_fileInput None (on_reset p))
  | EvUnload => Some (on_beforeunload p)
  end.

Fixpoint run (p : Page) (evs : list Event) : option Page :=
  match evs with
  | [] => Some p
  | e :: evs' =>
      match step p e with
      | Some p' => run p' evs'
      | None => None
      end
  end.

Definition reachable (p : Page) : Prop := ∃ evs, run init evs = Some p.

(** The requests issued while [evs] is run from [p]: what is in [sent]
    at the end and was not at the start. *)
Definition issued (p : Page) (evs : list Event) : list Request :=
  match run p evs with
  | Some p' => drop (length (sent p)) (sent p')
  | None => []
  end.

Definition is_status_request (rq : Request) : bool :=
  match rq with ReqStatus _ => true | _ => false end.

(** The status requests awaiting their answer. *)
Definition status_in_flight (p : Page) : list (nat * Request) :=
  filter (fun e => is_status_request e.2 = true) (pending p).

(** *** Notions used to state the properties of the page *)

(** The two grounds on which a selected file is turned down. *)
Definition too_large (file : File) : Prop := (1048576 < f_size file)%N.

Definition wrong_type (file : File) : Prop :=
  f_type file ≠ lit "text/plain" ∧ endsWith (f_name file) (lit ".txt") = false.

(** The job ids that the answers to submissions in [evs] put into
    [batchId]. *)
Fixpoint handed_out (evs : list Event) : list jsstring :=
  match evs with
  | EvAnswer _ (AnsSubmit (Parsed true data)) :: evs' =>
      match truthy_opt (sd_error data), sd_batch_id data with
      | false, Some b => b :: handed_out evs'
      | _, _ => handed_out evs'
      end
  | _ :: evs' => handed_out evs'
  | [] => []
  end.

(** No status request goes out any more, except for a job that a later
    submission creates. *)
Definition quiet (p : Page) : Prop :=
  ∀ evs b, ReqStatus b ∈ issued p evs → b ∈ handed_out evs.

(** The status answer obeys the data model: a job-level [error] comes
    only with the status ['failed']. *)
Definition error_only_when_failed (st : StatusObj) : Prop :=
  truthy_opt (st_error st) = true → st_status st = lit "failed".

(** What holds of the page whatever the browser delivers: a scheduled
    timer is the one [statusInterval] names, timer ids are positive, and
    request ids are not reused. *)
Definition page_inv (p : Page) : Prop :=
  (∀ t, t ∈ timers p → statusInterval p = Some t) ∧
  statusInterval p ≠ Some 0 ∧
  0 < next_timer p ∧
  (∀ e, e ∈ pending p → e.1 < next_request p).

(** The jobs the page may still ask the status of: with a timer
    scheduled and [batchId] set, that job is among [ids]. *)
Definition may_poll (p : Page) (ids : list jsstring) : Prop :=
  ∀ b, batchId p = Some b → timers p ≠ ∅ → b ∈ ids.

(** *** Sample runs *)

Definition submit_ok (r : nat) (b : string) : Event :=
  EvAnswer r (AnsSubmit
    (Parsed true {| sd_error := None; sd_batch_id := Some (lit b) |})).

Definition status_of (s : string) (e : option jsstring) : StatusObj :=
  {| st_error := e; st_status := lit s; st_chart_type := Some (lit "day");
     st_progress := Some 50%Q; st_completed := Some 1%N;
     st_failed := Some 0%N; st_total := Some 2%N;
     st_start_time := None |}.

(** A submission is answered with the job id ["b1"] and the timer
    ticks once: one status request awaits its answer. *)
Definition polling_run : list Event := [EvSubmit; submit_ok 0 "b1"; EvTick 1].

Definition polling_page : Page := default init (run init polling_run).

(** The timer ticks again before the first answer has come. *)
Definition overlap_run : list Event := polling_run ++ [EvTick 1].

(** The status request fails in transport. *)
Definition transport_error_run : list Event :=
  polling_run ++ [EvAnswer 1 (AnsStatus (Rejected (lit "Failed to fetch")))].

(** The status answer says ['completed'] and yet carries an [error]. *)
Definition completed_with_error : StatusObj :=
  status_of "completed" (Some (lit "oops")).

End Batch.

(** ** The batch job store and runner

    The server side that answers [/api/analyze/batch] and
    [/api/batch/status/<id>] is not among the scripts; its job store and
    runner are written down here from their description. *)

Module Server.

(** Modelled from the spec: the four values of a job's [status]. *)
Inductive Status := waiting | running | completed | failed.

#[global] Instance Status_eq_dec : EqDecision Status.
Proof. solve_decision. Defined.

(** Modelled from the spec: the error taxonomy of the batch engine. *)
Inductive Fault :=
  | InvalidInput
  | InternalError
  | NotFound
  | InvalidStateTransition
  | JobNotTerminal.

(** Modelled from the spec: the analysis payload of one stock code, as
    the single analysis endpoint returns it. *)
Record Analysis := {
  stock_name : string;
  analysis_score : N;
  summary : string;
  detailed_analysis : string
}.

(** Modelled from the spec: a per-item outcome of the BatchJob data
    model, a success payload or [{stock_code, error}]. *)
Inductive Outcome :=
  | Success (stock_code : string) (payload : Analysis)
  | Failure (stock_code : string) (error : string).

Definition code_of (o : Outcome) : string :=
  match o with Success c _ => c | Failure c _ => c end.

Definition has_error (o : Outcome) : bool :=
  match o with Success _ _ => false | Failure _ _ => true end.

(** Modelled from the spec: the BatchJob record of the data model;
    [progress] is derived below. *)
Record Job := {
  id : N;
  status : Status;
  items : list string;
  chart_type : string;
  total : nat;
  completed_count : nat;
  failed_count : nat;
  start_time : N;
  results : list Outcome;
  error : option string
}.

(** [completed_count + failed_count] *)
Definition processed (j : Job) : nat := completed_count j + failed_count j.

(** Modelled from the spec: the derived field [progress],
    [(completed_count + failed_count) / total * 100]. *)
Definition progress (j : Job) : Q :=
  match total j with
  | O => 0
  | S _ => (Z.of_nat (processed j) * 100) # Pos.of_nat (total j)
  end.

Definition terminal (s : Status) : bool :=
  match s with completed | failed => true | _ => false end.

(** Modelled from the spec: the order
    [waiting -> running -> {completed, failed}] of a job's status, one
    arrow at a time. *)
Inductive forward : Status → Status → Prop :=
  | forward_start : forward waiting running
  | forward_complete : forward running completed
  | forward_fail : forward running failed.

(** Modelled from the spec: the test [SetStatus] makes before it
    writes, whether the new status is the next one along
    [waiting -> running -> {completed, failed}]. *)
Definition allowed (old new : Status) : bool :=
  match old, new with
  | waiting, running => true
  | running, completed => true
  | running, failed => true
  | _, _ => false
  end.

(** *** BatchJobStore *)

(** Modelled from the spec: [Create(job)] of the BatchJobStore, which
    stores the job under its id and treats an id already in use as a
    fatal [InternalError]. *)
Definition Create (job : Job) (st : gmap N Job) : Fault + gmap N Job :=
  match st !! id job with
  | Some _ => inl InternalError
  | None => inr (<[id job := job]> st)
  end.

(** Modelled from the spec: [Get(job_id)] of the BatchJobStore, a job
    snapshot or [NotFound]. *)
Definition Get (job_id : N) (st : gmap N Job) : Fault + Job :=
  match st !! job_id with
  | Some j => inr j
  | None => inl NotFound
  end.

(** Modelled from the spec: what the BatchRunner records for one item,
    the outcome appended to [results] and the counter of its kind
    incremented. *)
Definition record_outcome (o : Outcome) (j : Job) : Job :=
  {| id := id j; status := status j; items := items j;
     chart_type := chart_type j; total := total j;
     completed_count :=
       if has_error o then completed_count j else S (completed_count j);
     failed_count :=
       if has_error o then S (failed_count j) else failed_count j;
     start_time := start_time j;
     results := results j ++ [o];
     error := error j |}.

(** Modelled from the spec: [UpdateProgress(job_id, delta)] of the
    BatchJobStore, the delta being the outcome of one item; the record
    is replaced in one step, so no reader sees half an update. *)
Definition UpdateProgress (job_id : N) (delta : Outcome) (st : gmap N Job)
  : Fault + gmap N Job :=
  match st !! job_id with
  | Some j => inr (<[job_id := record_outcome delta j]> st)
  | None => inl NotFound
  end.

(** Modelled from the spec: the job record once [SetStatus] has
    written; [error] is set only when the status becomes [failed]. *)
Definition with_status (s : Status) (err : option string) (j : Job) : Job :=
  {| id := id j; status := s; items := items j;
     chart_type := chart_type j; total := total j;
     completed_count := completed_count j;
     failed_count := failed_count j;
     start_time := start_time j;
     results := results j;
     error := match s with failed => err | _ => error j end |}.

(** Modelled from the spec: [SetStatus(job_id, status, error?)] of the
    BatchJobStore, which moves a job one step forward along
    [waiting -> running -> {completed, failed}] and rejects any other
    request as an [InvalidStateTransition]. *)
Definition SetStatus (job_id : N) (s : Status) (err : option string)
    (st : gmap N Job) : Fault + gmap N Job :=
  match st !! job_id with
  | Some j =>
      if allowed (status j) s
      then inr (<[job_id := with_status s err j]> st)
      else inl InvalidStateTransition
  | None => inl NotFound
  end.

(** The calls a client of the store can make, in any order and with any
    arguments. *)
Inductive Call :=
  | CallCreate (job : Job)
  | CallUpdateProgress (job_id : N) (delta : Outcome)
  | CallSetStatus (job_id : N) (s : Status) (err : option string).

Definition apply_call (c : Call) (st : gmap N Job) : Fault + gmap N Job :=
  match c with
  | CallCreate job => Create job st
  | CallUpdateProgress job_id delta => UpdateProgress job_id delta st
  | CallSetStatus job_id s err => SetStatus job_id s err st
  end.

(** The store after a call: a rejected call leaves it as it was. *)
Definition exec (st : gmap N Job) (c : Call) : gmap N Job :=
  match apply_call c st with
  | inr st' => st'
  | inl _ => st
  end.

(** *** BatchRunner *)

Section Runner.

(** The AnalysisUnit: a stock code and a chart type give an analysis
    payload or an error. *)
Variable analyze : string → string → Analysis + string.

Definition run_item (chart : string) (code : string) : Outcome :=
  match analyze code chart with
  | inl payload => Success code payload
  | inr e => Failure code e
  end.

(** Modelled from the spec: the job that [Submit] creates, running,
    with [total] the number of items and both counts at zero. *)
Definition new_job (job_id : N) (its : list string) (chart : string)
    (now : N) : Job :=
  {| id := job_id; status := running; items := its; chart_type := chart;
     total := length its; completed_count := 0; failed_count := 0;
     start_time := now; results := []; error := None |}.

(** Modelled from the spec: [Submit(items, chart_type)] of the
    BatchRunner up to the creation of the job; [job_id] is the
    identifier generated for this submission and [now] the clock. *)
Definition Submit (job_id : N) (its : list string) (chart : string)
    (now : N) (st : gmap N Job) : Fault + gmap N Job :=
  match its with
  | [] => inl InvalidInput
  | _ => Create (new_job job_id its chart now) st
  end.

(** The store together with the runner's working references: for each
    job being processed, the items not processed yet. *)
Record System := {
  store : gmap N Job;
  work : gmap N (list string)
}.

(** Modelled from the spec: how an item that a job-level fault left
    unprocessed is marked in [results], an error entry like that of a
    failed item. *)
Definition not_processed (code : string) : Outcome :=
  Failure code "not processed".

(** Modelled from the spec: the remaining items of a job marked as not
    processed, one recorded outcome each. *)
Definition mark_not_processed (job_id : N) (remaining : list string)
    (st : gmap N Job) : gmap N Job :=
  foldl (fun st code => exec st (CallUpdateProgress job_id (not_processed code)))
        st remaining.

(** Modelled from the spec: the BatchRunner at work.  Workers take the
    remaining items of a job in any order; each item is analysed and
    its outcome recorded.  Each step is one serialised write to the job
    record, so that no reader sees a record that breaks the invariant
    of the data model: the outcome of the last item is written
    together with the status [completed], and a job-level fault marks
    the remaining items as not processed together with the status
    [failed]. *)
Inductive sys_step : System → System → Prop :=
  | step_submit job_id its chart now s st' :
      Submit job_id its chart now (store s) = inr st' →
      sys_step s {| store := st'; work := <[job_id := its]> (work s) |}
  | step_item job_id before code after j s st' :
      work s !! job_id = Some (before ++ code :: after) →
      before ++ after ≠ [] →
      store s !! job_id = Some j →
      UpdateProgress job_id (run_item (chart_type j) code) (store s)
        = inr st' →
      sys_step s {| store := st';
                    work := <[job_id := before ++ after]> (work s) |}
  | step_last_item job_id code j s st1 st' :
      work s !! job_id = Some [code] →
      store s !! job_id = Some j →
      UpdateProgress job_id (run_item (chart_type j) code) (store s)
        = inr st1 →
      SetStatus job_id completed None st1 = inr st' →
      sys_step s {| store := st'; work := delete job_id (work s) |}
  | step_fault job_id remaining e s st' :
      work s !! job_id = Some remaining →
      SetStatus job_id failed (Some e)
        (mark_not_processed job_id remaining (store s)) = inr st' →
      sys_step s {| store := st'; work := delete job_id (work s) |}.

Definition sys_init : System := {| store := ∅; work := ∅ |}.

Definition sys_reachable (s : System) : Prop := rtc sys_step sys_init s.

(** Modelled from the spec: the BatchRunner with one worker and no
    job-level fault, item after item in submission order. *)
Definition process_all (job_id : N) (chart : string) (its : list string)
    (st : gmap N Job) : gmap N Job :=
  foldl (fun st code => exec st (CallUpdateProgress job_id (run_item chart code)))
        st its.

(** Modelled from the spec: [Submit] followed by the processing of all
    items and the final [SetStatus] to [completed]. *)
Definition run_batch (job_id : N) (its : list string) (chart : string)
    (now : N) (st : gmap N Job) : Fault + gmap N Job :=
  match Submit job_id its chart now st with
  | inr st1 =>
      SetStatus job_id completed None (process_all job_id chart its st1)
  | inl f => inl f
  end.

(** The number of items whose analysis fails. *)
Definition failing (chart : string) (its : list string) : nat :=
  length (filter (fun c => has_error (run_item chart c) = true) its).

(** What holds of every job in a reachable system. *)
Definition job_inv (s : System) (j : Job) : Prop :=
  total j = length (items j) ∧
  status j ≠ waiting ∧
  completed_count j
    = length (filter (fun o => has_error o = false) (results j)) ∧
  failed_count j
    = length (filter (fun o => has_error o = true) (results j)) ∧
  match work s !! id j with
  | Some remaining =>
      status j = running ∧ remaining ≠ [] ∧
      ∃ done, results j = run_item (chart_type j) <$> done ∧
              done ++ remaining ≡ₚ items j
  | None =>
      terminal (status j) = true ∧
      length (results j) = length (items j) ∧
      (status j = completed →
         ∃ done, results j = run_item (chart_type j) <$> done ∧
                 done ≡ₚ items j)
  end.

Definition sys_inv (s : System) : Prop :=
  (∀ job_id j, store s !! job_id = Some j → id j = job_id ∧ job_inv s j) ∧
  (∀ job_id, is_Some (work s !! job_id) → is_Some (store s !! job_id)).

End Runner.

(** An AnalysisUnit that fails on the stock code ["000000"] and
    succeeds on every other. *)
Definition sample_analyze (code chart : string) : Analysis + string :=
  if bool_decide (code = "000000"%string)
  then inr "no data"%string
  else inl {| stock_name := code; analysis_score := 50;
              summary := chart; detailed_analysis := chart |}.

(** *** Sample systems *)

Definition one_job : gmap N Job :=
  {[ 7%N := new_job 7 ["005930"%string] "day" 0 ]}.

Definition sample_job : Job := new_job 1 ["005930"%string] "day" 0.

(** One stock code has been submitted as job 1. *)
Definition sample_submitted : System :=
  {| store := <[1%N := sample_job]> ∅;
     work := <[1%N := ["005930"%string]]> ∅ |}.

(** The item of job 1 has been processed: the job is completed. *)
Definition sample_completed : System :=
  {| store :=
       <[1%N := with_status completed None
                  (record_outcome (run_item sample_analyze "day" "005930")
                     sample_job)]>
         (<[1%N := record_outcome (run_item sample_analyze "day" "005930")
                     sample_job]> (store sample_submitted));
     work := delete 1%N (work sample_submitted) |}.

End Server.

(** ** single.js : the answer and the result panel *)

Module SinglePage.
Import Js Single.

(** *** Literals *)

(** '분석 중 오류가 발생했습니다.' *)
Definition msg_analysis_error : jsstring :=
  [48516; 49437; 32; 51473; 32; 50724; 47448; 44032; 32; 48156; 49373;
   54664; 49845; 45768; 45796; 46]%N.

(** '매우 좋은 투자 기회입니다.' *)
Definition desc_very_good : jsstring :=
  [47588; 50864; 32; 51339; 51008; 32; 53804; 51088; 32; 44592; 54924;
   51077; 45768; 45796; 46]%N.

(** '적당한 투자 기회입니다.' *)
Definition desc_fair : jsstring :=
  [51201; 45817; 54620; 32; 53804; 51088; 32; 44592; 54924; 51077; 45768;
   45796; 46]%N.

(** '투자에 주의가 필요합니다.' *)
Definition desc_caution : jsstring :=
  [53804; 51088; 50640; 32; 51452; 51032; 44032; 32; 54596; 50836; 54633;
   45768; 45796; 46]%N.

(** '분석 요약이 없습니다.' *)
Definition msg_no_summary : jsstring :=
  [48516; 49437; 32; 50836; 50557; 51060; 32; 50630; 49845; 45768; 45796;
   46]%N.

(** '상세 분석이 없습니다.' *)
Definition msg_no_details : jsstring :=
  [49345; 49464; 32; 48516; 49437; 51060; 32; 50630; 49845; 45768; 45796;
   46]%N.

Definition bg_green : jsstring :=
  lit "linear-gradient(135deg, #28a745, #20c997)".
Definition bg_yellow : jsstring :=
  lit "linear-gradient(135deg, #ffc107, #fd7e14)".
Definition bg_red : jsstring :=
  lit "linear-gradient(135deg, #dc3545, #e83e8c)".

(** *** formatText *)

(** The code unit of the asterisk. *)
Definition star : N := 42%N.

(** What [.] does not match: the line terminators. *)
Definition is_line_terminator (c : N) : bool :=
  ((c =? 10) || (c =? 13) || (c =? 8232) || (c =? 8233))%N.

(** [text.replace(/\n/g, '<br>')] *)
Definition replace_newlines (text : jsstring) : jsstring :=
  c ← text; if (c =? 10)%N then lit "<br>" else [c].

(** [s] without the literal [prefix] it starts with, if it does. *)
Fixpoint strip_prefix (prefix s : jsstring) : option jsstring :=
  match prefix, s with
  | [], _ => Some s
  | p :: prefix', c :: s' =>
      if (p =? c)%N then strip_prefix prefix' s' else None
  | _ :: _, [] => None
  end.

(** The lazy group [(.*?)] followed by the closing marker: the shortest
    run of characters other than line terminators after which [delim]
    stands; the run and what follows the marker. *)
Fixpoint find_close (delim s : jsstring) : option (jsstring * jsstring) :=
  match strip_prefix delim s with
  | Some after => Some ([], after)
  | None =>
      match s with
      | c :: s' =>
          if is_line_terminator c then None
          else match find_close delim s' with
               | Some (inner, after) => Some (c :: inner, after)
               | None => None
               end
      | [] => None
      end
  end.

(** A match of [delim (.*?) delim] starting at the head of [s]: the
    group and the rest of [s] after the match. *)
Definition match_at (d : N) (ds s : jsstring) : option (jsstring * jsstring) :=
  match strip_prefix (d :: ds) s with
  | Some rest => find_close (d :: ds) rest
  | None => None
  end.

Definition inspect {A : Type} (a : A) : {b : A | a = b} := exist _ a eq_refl.

(** [s.replace(/delim(.*?)delim/g, open + '$1' + close)], the marker
    being [d :: ds]: matches are looked for from left to right, and the
    search goes on after each match. *)
Equations? replace_all (d : N) (ds open close s : jsstring) : jsstring
  by wf (length s) lt :=
  replace_all d ds open close [] := [];
  replace_all d ds open close (c :: s')
    with inspect (match_at d ds (c :: s')) => {
    | exist _ (Some (inner, after)) Hm =>
        open ++ inner ++ close ++ replace_all d ds open close after;
    | exist _ None Hm => c :: replace_all d ds open close s' }.
Proof.
  assert (Hstrip : ∀ prefix s rest : jsstring,
            strip_prefix prefix s = Some rest →
            length s = length prefix + length rest).
  { intros prefix. induction prefix as [|p prefix IH]; intros [|x s] rest;
      simpl; try congruence.
    - intros [= <-]. done.
    - intros [= <-]. done.
    - destruct (p =? x)%N; [|done]. intros H. apply IH in H. lia. }
  assert (Hfind : ∀ delim s i0 r0 : jsstring,
            find_close delim s = Some (i0, r0) →
            length r0 + length delim ≤ length s).
  { intros delim s. induction s as [|x s IH]; intros i0 r0; simpl.
    - destruct (strip_prefix delim []) eqn:Hp; [|done].
      intros [= <- <-]. apply Hstrip in Hp. simpl in Hp. lia.
    - destruct (strip_prefix delim (x :: s)) eqn:Hp.
      + intros [= <- <-]. apply Hstrip in Hp. simpl in Hp. lia.
      + destruct (is_line_terminator x); [done|].
        destruct (find_close delim s) as [[i a]|]; [|done].
        intros [= <- <-]. specialize (IH i a eq_refl). lia. }
  unfold match_at in Hm.
  destruct (strip_prefix (d :: ds) (c :: s')) as [rest|] eqn:Hp; [|done].
  apply Hstrip in Hp. apply Hfind in Hm. simpl in *. lia.
Qed.

(** [formatText(text)] *)
Definition formatText (text : jsstring) : jsstring :=
  if negb (truthy_str text) then []
  else
    let text1 := replace_newlines text in
    let text2 :=
      replace_all star [star] (lit "<strong>") (lit "</strong>") text1 in
    replace_all star [] (lit "<em>") (lit "</em>") text2.

(** *** showResult *)

(** The JSON object answered to [POST /api/analyze/single/chart]; a
    number is kept as a rational. *)
Record SingleData := {
  sg_error : option jsstring;
  sg_stock_name : option jsstring;
  sg_chart_type : option jsstring;
  sg_analysis_score : option Q;
  sg_summary : option jsstring;
  sg_detailed_analysis : option jsstring
}.

(** What [showResult] writes into the result panel. *)
Record ResultView := {
  v_stock : jsstring;
  v_chart_type : jsstring;
  v_time : jsstring;
  v_score : Q;
  v_background : jsstring;
  v_description : jsstring;
  v_summary : jsstring;
  v_details : jsstring
}.

(** The first [if] chain of [showResult]. *)
Definition score_background (score : Q) : jsstring :=
  if Qle_bool 80 score then bg_green
  else if Qle_bool 60 score then bg_yellow
  else bg_red.

(** The second [if] chain of [showResult]. *)
Definition score_description (score : Q) : jsstring :=
  if Qle_bool 80 score then desc_very_good
  else if Qle_bool 60 score then desc_fair
  else desc_caution.

(** [showResult(data)], [now] being [new Date().toLocaleString('ko-KR')]. *)
Definition showResult (data : SingleData) (now : jsstring) : ResultView :=
  let score := default 0%Q (sg_analysis_score data) in
  {| v_stock := or_str (sg_stock_name data) (lit "N/A");
     v_chart_type := or_str (sg_chart_type data) (lit "N/A");
     v_time := now;
     v_score := score;
     v_background := score_background score;
     v_description := score_description score;
     v_summary := formatText (or_str (sg_summary data) msg_no_summary);
     v_details :=
       formatText (or_str (sg_detailed_analysis data) msg_no_details) |}.

(** *** The page *)

Record Page := {
  field : jsstring;
  chartType : jsstring;
  resultVisible : bool;
  resultView : option ResultView;
  errorVisible : bool;
  errorMessage : jsstring;
  loading : bool;
  sent : list SingleBody;
  console : list jsstring
}.

Definition apply_effect (p : Page) (e : Effect) : Page :=
  match e with
  | ShowError m =>
      {| field := field p; chartType := chartType p;
         resultVisible := resultVisible p; resultView := resultView p;
         errorVisible := true; errorMessage := m;
         loading := loading p; sent := sent p; console := console p |}
  | HideResult =>
      {| field := field p; chartType := chartType p;
         resultVisible := false; resultView := resultView p;
         errorVisible := errorVisible p; errorMessage := errorMessage p;
         loading := loading p; sent := sent p; console := console p |}
  | HideError =>
      {| field := field p; chartType := chartType p;
         resultVisible := resultVisible p; resultView := resultView p;
         errorVisible := false; errorMessage := errorMessage p;
         loading := loading p; sent := sent p; console := console p |}
  | SetLoading on =>
      {| field := field p; chartType := chartType p;
         resultVisible := resultVisible p; resultView := resultView p;
         errorVisible := errorVisible p; errorMessage := errorMessage p;
         loading := on; sent := sent p; console := console p |}
  | Fetch body =>
      {| field := field p; chartType := chartType p;
         resultVisible := resultVisible p; resultView := resultView p;
         errorVisible := errorVisible p; errorMessage := errorMessage p;
         loading := loading p; sent := sent p ++ [body];
         console := console p |}
  end.

(** The [submit] listener up to its [await], on the page. *)
Definition submit (p : Page) : Page :=
  foldl apply_effect p (on_submit (field p) (chartType p)).

(** [console.error('분석 오류:', error)] *)
Definition log (m : jsstring) (p : Page) : Page :=
  {| field := field p; chartType := chartType p;
     resultVisible := resultVisible p; resultView := resultView p;
     errorVisible := errorVisible p; errorMessage := errorMessage p;
     loading := loading p; sent := sent p; console := console p ++ [m] |}.

(** The [catch] and [finally] blocks of the [submit] listener. *)
Definition submit_failed (m : jsstring) (p : Page) : Page :=
  apply_effect (apply_effect (log m p) (ShowError m)) (SetLoading false).

(** The end of [showResult]: the panel is filled and shown. *)
Definition show (v : ResultView) (p : Page) : Page :=
  {| field := field p; chartType := chartType p;
     resultVisible := true; resultView := Some v;
     errorVisible := errorVisible p; errorMessage := errorMessage p;
     loading := loading p; sent := sent p; console := console p |}.

(** The [submit] listener once its request has settled. *)
Definition answer (o : Batch.Response SingleData) (now : jsstring)
    (p : Page) : Page :=
  match o with
  | Batch.Rejected m => submit_failed m p
  | Batch.Parsed ok data =>
      if negb ok then
        submit_failed (or_str (sg_error data) msg_analysis_error) p
      else if truthy_opt (sg_error data) then
        submit_failed (default [] (sg_error data)) p
      else apply_effect (show (showResult data now) p) (SetLoading false)
  end.

(** The [reset] listener of the form. *)
Definition reset (p : Page) : Page :=
  apply_effect (apply_effect p HideResult) HideError.

(** The answer brings an analysis: it was parsed, [response.ok] holds
    and it carries no [error]. *)
Definition accepted (o : Batch.Response SingleData) : bool :=
  match o with
  | Batch.Parsed true data => negb (truthy_opt (sg_error data))
  | _ => false
  end.

End SinglePage.

(** ** batch.js : the preview, the summary and the download button *)

Module BatchViews.
Import Js Batch.

(** [content.split('\n')] *)
Fixpoint split_lines (content : jsstring) : list jsstring :=
  match content with
  | [] => [[]]
  | c :: content' =>
      if (c =? 10)%N then [] :: split_lines content'
      else match split_lines content' with
           | line :: lines => (c :: line) :: lines
           | [] => [[c]]
           end
  end.

(** [content.split('\n').filter(line => line.trim())] *)
Definition nonblank_lines (content : jsstring) : list jsstring :=
  filter (fun line => truthy_str (trim line) = true) (split_lines content).

(** What the preview of a file lists: [lines.slice(0, 10)], and the
    number [lines.length - 10] when there are more than ten lines. *)
Definition preview_lines (content : jsstring) : list jsstring * option nat :=
  let lines := nonblank_lines content in
  (take 10 lines,
   if 10 <? length lines then Some (length lines - 10) else None).

(** [line] stands in [content] between two line feeds, or between a
    line feed and an end of [content], or is all of it. *)
Definition is_line_of (content line : jsstring) : Prop :=
  ∃ before after,
    content = before ++ line ++ after ∧
    (before = [] ∨ ∃ b, before = b ++ [10%N]) ∧
    (after = [] ∨ ∃ a, after = 10%N :: a).

(** The three numbers of the alert of [showResultsSummary]. *)
Record Summary := { sm_total : N; sm_success : nat; sm_errors : nat }.

(** [showResultsSummary(data)] *)
Definition showResultsSummary (data : ResultsData) : Summary :=
  let results := default [] (rd_results data) in
  {| sm_total :=
       match rd_status data with
       | Some status => default 0%N (st_total status)
       | None => 0%N
       end;
     sm_success :=
       length (filter (fun r => truthy_opt (ri_error r) = false) results);
     sm_errors :=
       length (filter (fun r => truthy_opt (ri_error r) = true) results) |}.

(** A result entry that reports no error: the field is absent, or it
    is the empty string. *)
Definition no_error (r : ResultItem) : Prop :=
  ri_error r = None ∨ ri_error r = Some [].

#[global] Instance no_error_dec (r : ResultItem) : Decision (no_error r) :=
  decide (ri_error r = None ∨ ri_error r = Some []).

(** The [onclick] of the download button, when [showBatchResults] has
    set it: the page goes to [/api/download/<batchId>], [batchId] read
    at the time of the click. *)
Definition on_download_click (p : Page) : option (option jsstring) :=
  if downloadBound p then Some (batchId p) else None.

(** The [onclick] of the summary button, when it is set. *)
Definition on_view_click (p : Page) : option Summary :=
  showResultsSummary <$> viewBound p.

(** A submission answer that starts polling. *)
Definition starts_polling (o : Response SubmitData) : bool :=
  match o with
  | Parsed true data => negb (truthy_opt (sd_error data))
  | _ => false
  end.

(** The job id a submission answer carries, if any. *)
Definition answered_id (o : Response SubmitData) : option jsstring :=
  match o with
  | Parsed _ data => sd_batch_id data
  | Rejected _ => None
  end.

(** The message of the error a submission answer ends in. *)
Definition failure_message (o : Response SubmitData) : jsstring :=
  match o with
  | Rejected m => m
  | Parsed false data => or_str (sd_error data) msg_batch_start_failed
  | Parsed true data => default [] (sd_error data)
  end.

(** The job a request names is the one in [batchId] when it is sent. *)
Definition names_job (p : Page) (rq : Request) : Prop :=
  match rq with
  | ReqStatus b => batchId p = Some b
  | ReqResults id => id = batchId p
  | ReqSubmit _ => True
  end.

(** A request for the status or the results of a job names one of
    [ids]. *)
Definition handed (ids : list jsstring) (rq : Request) : Prop :=
  match rq with
  | ReqStatus b | ReqResults (Some b) => b ∈ ids
  | _ => True
  end.

(** *** Sample pages *)

(** The form has been submitted and the answer is awaited. *)
Definition submitting_page : Page := default init (run init [EvSubmit]).

(** Job ["b1"] has completed and its results are shown. *)
Definition shown_results_page : Page :=
  default init
    (run init
       (polling_run ++
        [EvAnswer 1 (AnsStatus (Parsed true (status_of "completed" None)));
         EvAnswer 2 (AnsResults (Parsed true
           {| rd_error := None; rd_status := None;
              rd_results := Some [] |}))])).

End BatchViews.

(** ** The installation scripts *)

Module Install.

(** The commands the scripts run: [python3 --version] (in install.bat,
    [python --version]), [pip3 install -r requirements.txt] (in
    install.bat, [pip install ...]), [chmod +x file], [chcp 65001]. *)
Inductive Command :=
  | PythonVersion
  | PipInstallRequirements
  | Chmod (file : string)
  | Chcp.

(** The statements the two scripts are made of.  [ExitIfNotFound] is
    [if ! command -v tool &> /dev/null; then echo ...; exit code; fi];
    [ExitIfFailed] is [if errorlevel 1 ( echo ... pause exit /b code )],
    which looks at the command run just before. *)
Inductive Stmt :=
  | Echo
  | Run (c : Command)
  | ExitIfNotFound (tool : string) (code : nat)
  | ExitIfFailed (code : nat)
  | Pause.

(** The machine the script runs on: which tools are on the path, and
    which commands succeed. *)
Record Env := { found : string → bool; succeeds : Command → bool }.

Inductive Outcome := Finished | Exited (code : nat).

(** The commands run from the start of [script] on and how the script
    ends, [last_failed] telling whether the command before failed. *)
Fixpoint exec (env : Env) (last_failed : bool) (script : list Stmt)
  : list Command * Outcome :=
  match script with
  | [] => ([], Finished)
  | Echo :: script' | Pause :: script' => exec env last_failed script'
  | Run c :: script' =>
      let '(ran, out) := exec env (negb (succeeds env c)) script' in
      (c :: ran, out)
  | ExitIfNotFound tool code :: script' =>
      if found env tool then exec env last_failed script'
      else ([], Exited code)
  | ExitIfFailed code :: script' =>
      if last_failed then ([], Exited code)
      else exec env last_failed script'
  end.

(** The installation script for Unix shells, statement by statement. *)
Definition install_sh : list Stmt :=
  [ Echo; Echo; Echo; Echo;
    ExitIfNotFound "python3" 1;
    Echo; Run PythonVersion;
    ExitIfNotFound "pip3" 1;
    Echo; Echo;
    Echo; Echo;
    Echo; Run PipInstallRequirements;
    Echo; Echo; Echo; Echo; Echo; Echo; Echo; Echo; Echo; Echo;
    Echo; Echo; Echo; Echo; Echo; Echo; Echo; Echo; Echo;
    Run (Chmod "day_stock_analysis.py");
    Run (Chmod "ai_chart_analysis.py");
    Run (Chmod "integrated_stock_analysis.py");
    Run (Chmod "setup_api_key.py");
    Echo; Echo ].


(** A machine with [python3] but without [pip3]. *)
Definition env_without_pip : Env :=
  {| found := fun tool => bool_decide (tool = "python3"%string);
     succeeds := fun _ => true |}.

End Install.

(** * Properties *)

(** ** single.js *)

Section SingleProperties.
Import Js Single.

Lemma digit_not_space (c : N) : is_digit c = true → is_space c = false.
Proof.
  unfold is_digit, is_space. intros H.
  apply andb_true_iff in H as [H1 H2].
  apply N.leb_le in H1. apply N.leb_le in H2.
  repeat (apply orb_false_iff; split);
    try (apply N.eqb_neq; lia).
  apply andb_false_iff. left. apply N.leb_gt. lia.
Qed.

Lemma trim_start_digits (s : jsstring) :
  Forall (fun c => is_digit c = true) s → trim_start s = s.
Proof.
  destruct 1 as [|c s Hc _]; [done|].
  simpl. by rewrite (digit_not_space c Hc).
Qed.

Lemma trim_digits (s : jsstring) :
  Forall (fun c => is_digit c = true) s → trim s = s.
Proof.
  intros H. unfold trim.
  rewrite (trim_start_digits s H).
  rewrite trim_start_digits; [apply reverse_involutive|].
  by apply Forall_reverse.
Qed.

Lemma on_input_digits (value : jsstring) :
  Forall (fun c => is_digit c = true) (on_input value).1.
Proof.
  unfold on_input. simpl.
  destruct (truthy_str value) eqn:Ht; simpl.
  - destruct (test_digits_0_6 value) eqn:Hd; simpl.
    + unfold test_digits_0_6 in Hd.
      apply andb_true_iff in Hd as [Hd _].
      apply Forall_forall. intros c Hc.
      rewrite forallb_forall in Hd. apply Hd.
      by apply list_elem_of_In.
    + unfold strip_non_digits. apply Forall_forall.
      intros c Hc. by apply list_elem_of_filter in Hc as [Hc _].
  - destruct value; [constructor | discriminate].
Qed.

Lemma field_after_digits (edits : list jsstring) :
  Forall (fun c => is_digit c = true) (field_after edits).
Proof.
  unfold field_after.
  induction edits as [|value edits _] using rev_ind; [constructor|].
  rewrite foldl_app. simpl. apply on_input_digits.
Qed.

(** C8. Whatever the user typed into the stock code field, submitting
    the single analysis form sends a request exactly when the field
    holds six digits, and the request then carries that code; otherwise
    only the error message is shown.  "005930" is sent; "59300" is
    turned down; "00593a" loses its letter to the input filter and is
    turned down as the five digits "00593". *)
Theorem single_submit_iff_six_digits (edits : list jsstring)
    (chartType : jsstring) :
  let field := field_after edits in
  (sends_request (on_submit field chartType) ↔ six_digits field) ∧
  (on_submit field chartType = [ShowError msg_need_six_digits] ∨
   on_submit field chartType =
     [HideResult; HideError; SetLoading true;
      Fetch {| stock_code := field; chart_type := chartType |}]) ∧
  on_submit (field_after [lit "005930"]) chartType =
    [HideResult; HideError; SetLoading true;
     Fetch {| stock_code := lit "005930"; chart_type := chartType |}] ∧
  on_submit (field_after [lit "59300"]) chartType =
    [ShowError msg_need_six_digits] ∧
  field_after [lit "00593a"] = lit "00593" ∧
  on_submit (field_after [lit "00593a"]) chartType =
    [ShowError msg_need_six_digits].
Proof.
  intros field.
  assert (Hd : Forall (fun c => is_digit c = true) field)
    by apply field_after_digits.
  assert (Hshape :
    on_submit field chartType =
      if bool_decide (length field = 6)
      then [HideResult; HideError; SetLoading true;
            Fetch {| stock_code := field; chart_type := chartType |}]
      else [ShowError msg_need_six_digits]).
  { unfold on_submit. rewrite (trim_digits field Hd).
    case_bool_decide as Hlen; simpl.
    - destruct field; [discriminate Hlen | reflexivity].
    - by rewrite orb_true_r. }
  split; [|split; [|repeat split; reflexivity]].
  - rewrite Hshape. unfold sends_request, six_digits.
    case_bool_decide as Hlen; split.
    + done.
    + intros _. eexists. do 3 apply list_elem_of_further.
      apply list_elem_of_here.
    + intros [body Hin]. apply list_elem_of_singleton in Hin. discriminate.
    + intros [Hl _]. contradiction.
  - rewrite Hshape. case_bool_decide; [by right | by left].
Qed.

Example on_input_strips_letter : on_input (lit "00593a") = (lit "00593", true).
Proof. vm_compute. reflexivity. Qed.

Example on_input_keeps_seven_digits :
  on_input (lit "1234567") = (lit "1234567", false).
Proof. vm_compute. reflexivity. Qed.

Example trim_blanks : trim (lit "  005930 ") = lit "005930".
Proof. vm_compute. reflexivity. Qed.

(** The submit handler alone looks at the length only. *)
Example on_submit_six_letters :
  on_submit (lit "abcdef") (lit "day") =
    [HideResult; HideError; SetLoading true;
     Fetch {| stock_code := lit "abcdef"; chart_type := lit "day" |}].
Proof. vm_compute. reflexivity. Qed.

End SingleProperties.

(** ** batch.js *)

Section StatusText.
Import Js Batch.

Lemma statusMap_keys (status : jsstring) :
  status ∉ [lit "waiting"; lit "running"; lit "completed"; lit "failed"] →
  statusMap !! status = None.
Proof.
  intros Hnot. unfold statusMap.
  rewrite !lookup_insert_ne, lookup_empty; [done|..];
    intros <-; apply Hnot; repeat constructor.
Qed.

(** The four statuses of a job get their label. *)
Lemma getStatusText_labels :
  getStatusText (lit "waiting") = JStr label_waiting ∧
  getStatusText (lit "running") = JStr label_running ∧
  getStatusText (lit "completed") = JStr label_completed ∧
  getStatusText (lit "failed") = JStr label_failed.
Proof. repeat split; vm_compute; reflexivity. Qed.

(** A status that is neither one of the four nor the name of a property
    of [Object.prototype] comes back as it is. *)
Lemma getStatusText_passthrough (status : jsstring) :
  status ∉ [lit "waiting"; lit "running"; lit "completed"; lit "failed"] →
  status ∉ object_prototype_keys →
  getStatusText status = JStr status.
Proof.
  intros Hkeys Hproto. unfold getStatusText, get_prop.
  rewrite (statusMap_keys status Hkeys).
  rewrite bool_decide_eq_false_2 by done. reflexivity.
Qed.

(** C9. [getStatusText('constructor')] is not the string it was given:
    the lookup [statusMap[status]] finds the function that every object
    literal inherits under that name, which is truthy, so the fallback
    [|| status] is not taken. *)
Theorem getStatusText_inherited_key :
  getStatusText (lit "constructor") = JBuiltin (lit "constructor") ∧
  getStatusText (lit "constructor") ≠ JStr (lit "constructor") ∧
  lit "constructor"
    ∉ [lit "waiting"; lit "running"; lit "completed"; lit "failed"].
Proof.
  split; [vm_compute; reflexivity|].
  split; [vm_compute; discriminate|].
  apply (bool_decide_unpack _). vm_compute. exact I.
Qed.

End StatusText.

Section FileSelection.
Import Js Batch.

(** C7. Selecting a file sends nothing, whatever the file.  A file of
    more than 1,048,576 bytes is turned down with the size message; a
    smaller one that is neither of type text/plain nor named [*.txt] is
    turned down with the type message; in both cases the file input is
    cleared and nothing is read.  Any other file stays selected and is
    read for the preview.  1,048,576 bytes is not too large, 1,048,577
    is. *)
Theorem file_change_validates (p : Page) (file : File) :
  let p' := on_file_change (Some file) (set_fileInput (Some file) p) in
  step p (EvFileChange (Some file)) = Some p' ∧
  sent p' = sent p ∧ pending p' = pending p ∧
  ((too_large file ∧
    errorVisible p' = true ∧ errorMessage p' = msg_file_too_large ∧
    fileInput p' = None ∧ readers p' = readers p)
   ∨
   (¬ too_large file ∧ wrong_type file ∧
    errorVisible p' = true ∧ errorMessage p' = msg_text_only ∧
    fileInput p' = None ∧ readers p' = readers p)
   ∨
   (¬ too_large file ∧ ¬ wrong_type file ∧
    errorVisible p' = errorVisible p ∧ errorMessage p' = errorMessage p ∧
    fileInput p' = Some file ∧ readers p' = readers p ++ [file])) ∧
  ¬ too_large {| f_size := 1048576; f_type := f_type file;
                 f_name := f_name file |} ∧
  too_large {| f_size := 1048577; f_type := f_type file;
               f_name := f_name file |}.
Proof.
  intros p'. subst p'. unfold on_file_change, too_large, wrong_type.
  split; [reflexivity|].
  change (1024 * 1024)%N with 1048576%N.
  destruct (N.ltb_spec 1048576 (f_size file)) as [Hbig|Hsmall].
  { repeat split; try reflexivity; try (simpl; lia).
    left. repeat split; done. }
  case_bool_decide as Htype; simpl.
  { repeat split; try reflexivity; try (simpl; lia).
    right; right. repeat split; try reflexivity; [lia|].
    intros [Hne _]. by apply Hne. }
  destruct (endsWith (f_name file) (lit ".txt")) eqn:Hname; simpl.
  { repeat split; try reflexivity; try (simpl; lia).
    right; right. repeat split; try reflexivity; [lia|].
    intros [_ Hfalse]. discriminate. }
  repeat split; try reflexivity; try (simpl; lia).
  right; left. repeat split; try reflexivity; [lia | done].
Qed.

Example endsWith_txt :
  endsWith (lit "codes.txt") (lit ".txt") = true ∧
  endsWith (lit "codes.TXT") (lit ".txt") = false ∧
  endsWith (lit "txt") (lit ".txt") = false.
Proof. repeat split; vm_compute; reflexivity. Qed.

End FileSelection.

(** *** The timer and the requests, whatever the browser delivers *)

Section PageInvariant.
Import Js Batch.

Lemma clear_current_timer (p : Page) :
  page_inv p → timers (clearInterval (statusInterval p) p) = ∅.
Proof.
  intros (Hcur & _). unfold clearInterval.
  destruct (statusInterval p) as [i|] eqn:Hi; simpl.
  - apply set_eq. intros t. split; [|set_solver].
    intros [Ht Hne]%elem_of_difference. specialize (Hcur t Ht).
    set_solver.
  - apply set_eq. intros t. split; [|set_solver].
    intros Ht. by specialize (Hcur t Ht).
Qed.

Lemma falsy_timer_null (p : Page) :
  page_inv p → truthy_timer (statusInterval p) = false →
  statusInterval p = None ∧ timers p = ∅.
Proof.
  intros (Hcur & Hpos & _) Hf.
  assert (Hnone : statusInterval p = None).
  { destruct (statusInterval p) as [[|i]|]; [done | discriminate | done]. }
  split; [done|].
  apply set_eq. intros t. split; [|set_solver].
  intros Ht. specialize (Hcur t Ht). congruence.
Qed.

Lemma elem_of_drop_request (r : nat) (l : list (nat * Request)) e :
  e ∈ drop_request r l → e ∈ l.
Proof. unfold drop_request. by intros [_ ?]%list_elem_of_filter. Qed.

Lemma init_inv : page_inv init.
Proof.
  unfold page_inv, init; simpl. repeat split; try set_solver; try lia.
Qed.

Lemma startStatusCheck_fields (p : Page) :
  page_inv p →
  timers (startStatusCheck p) = {[next_timer p]} ∧
  statusInterval (startStatusCheck p) = Some (next_timer p) ∧
  next_timer (startStatusCheck p) = S (next_timer p) ∧
  pending (startStatusCheck p) = pending p ∧
  next_request (startStatusCheck p) = next_request p ∧
  sent (startStatusCheck p) = sent p ∧
  batchId (startStatusCheck p) = batchId p.
Proof.
  intros Hinv. unfold startStatusCheck.
  destruct (truthy_timer (statusInterval p)) eqn:Ht.
  - pose proof (clear_current_timer p Hinv) as Hc.
    unfold clearInterval in *. destruct (statusInterval p); simpl in *.
    + rewrite Hc. repeat split; try reflexivity.
      apply (right_id_L ∅ (∪)).
    + discriminate.
  - destruct (falsy_timer_null p Hinv Ht) as [_ He]. simpl. rewrite He.
    repeat split; try reflexivity. apply (right_id_L ∅ (∪)).
Qed.

Lemma inv_frame (p p' : Page) :
  timers p' = timers p → statusInterval p' = statusInterval p →
  next_timer p' = next_timer p → pending p' = pending p →
  next_request p' = next_request p →
  page_inv p → page_inv p'.
Proof. unfold page_inv. by intros -> -> -> -> ->. Qed.

Lemma fetch_inv (rq : Request) (p : Page) : page_inv p → page_inv (fetch rq p).
Proof.
  intros (H1 & H2 & H3 & H4). unfold fetch. repeat split; simpl; try done.
  intros e He. apply elem_of_app in He as [He|He].
  - specialize (H4 e He). lia.
  - apply list_elem_of_singleton in He. subst e. simpl. lia.
Qed.

Lemma clearInterval_inv (t : option nat) (p : Page) :
  page_inv p → page_inv (clearInterval t p).
Proof.
  intros (H1 & H2 & H3 & H4). destruct t as [i|]; [|done].
  repeat split; simpl; try done.
  intros t [Ht _]%elem_of_difference. by apply H1.
Qed.

Lemma startStatusCheck_inv (p : Page) :
  page_inv p → page_inv (startStatusCheck p).
Proof.
  intros Hinv.
  destruct (startStatusCheck_fields p Hinv) as (Ht & Hs & Hn & Hp & Hr & _).
  destruct Hinv as (H1 & H2 & H3 & H4).
  unfold page_inv. rewrite Ht, Hs, Hn, Hp, Hr.
  repeat split; try done; try lia.
  - by intros t ->%elem_of_singleton.
  - intros [=]. lia.
Qed.

Lemma checkBatchStatus_inv (p : Page) :
  page_inv p → page_inv (checkBatchStatus p).
Proof.
  intros Hinv. unfold checkBatchStatus.
  destruct (negb (truthy_id (batchId p))); [done | by apply fetch_inv].
Qed.

Lemma checkBatchStatus_resume_inv (o : Response StatusObj) (p : Page) :
  page_inv p → page_inv (checkBatchStatus_resume o p).
Proof.
  intros Hinv. unfold checkBatchStatus_resume.
  destruct o as [m|ok status]; [by apply (inv_frame p)|].
  destruct (truthy_opt (st_error status)).
  { eapply inv_frame; [..|apply (clearInterval_inv (statusInterval p) p Hinv)];
      reflexivity. }
  assert (Hd : page_inv (updateStatusDisplay status p))
    by (by apply (inv_frame p)).
  repeat case_bool_decide.
  - by apply fetch_inv, clearInterval_inv.
  - eapply inv_frame;
      [..|apply (clearInterval_inv (statusInterval p) _ Hd)]; reflexivity.
  - exact Hd.
Qed.

Lemma on_submit_resume_inv (o : Response SubmitData) (p : Page) :
  page_inv p → page_inv (on_submit_resume o p).
Proof.
  intros Hinv. unfold on_submit_resume.
  destruct o as [m|ok data]; [by apply (inv_frame p)|].
  destruct ok; simpl; [|by apply (inv_frame p)].
  destruct (truthy_opt (sd_error data)); [by apply (inv_frame p)|].
  eapply inv_frame;
    [..|apply (startStatusCheck_inv
                 (showBatchStatus (set_batchId (sd_batch_id data) p)))];
    try reflexivity.
  by apply (inv_frame p).
Qed.

Lemma showBatchResults_resume_inv (o : Response ResultsData) (p : Page) :
  page_inv p → page_inv (showBatchResults_resume o p).
Proof.
  intros Hinv. unfold showBatchResults_resume.
  destruct o as [m|ok data]; [by apply (inv_frame p)|].
  destruct (truthy_opt (rd_error data)); by apply (inv_frame p).
Qed.

Lemma on_reset_fields (p : Page) :
  page_inv p →
  timers (on_reset p) = ∅ ∧ statusInterval (on_reset p) = None ∧
  batchId (on_reset p) = None ∧ sent (on_reset p) = sent p ∧
  pending (on_reset p) = pending p ∧
  next_timer (on_reset p) = next_timer p ∧
  next_request (on_reset p) = next_request p.
Proof.
  intros Hinv. unfold on_reset. simpl.
  destruct (truthy_timer (statusInterval p)) eqn:Ht.
  - pose proof (clear_current_timer p Hinv) as Hc.
    unfold clearInterval in *. simpl.
    destruct (statusInterval p); [|discriminate]. simpl in *.
    by rewrite Hc.
  - destruct (falsy_timer_null p Hinv Ht) as [Hs He]. simpl.
    by rewrite Hs, He.
Qed.

Lemma on_reset_inv (p : Page) : page_inv p → page_inv (on_reset p).
Proof.
  intros Hinv.
  destruct (on_reset_fields p Hinv) as (Ht & Hs & _ & _ & Hp & Hn & Hr).
  destruct Hinv as (H1 & H2 & H3 & H4).
  unfold page_inv. rewrite Ht, Hs, Hp, Hn, Hr.
  repeat split; try done.
Qed.

Lemma on_beforeunload_timers (p : Page) :
  page_inv p → timers (on_beforeunload p) = ∅.
Proof.
  intros Hinv. unfold on_beforeunload.
  destruct (truthy_timer (statusInterval p)) eqn:Ht.
  - by apply clear_current_timer.
  - by destruct (falsy_timer_null p Hinv Ht).
Qed.

Lemma on_beforeunload_inv (p : Page) :
  page_inv p → page_inv (on_beforeunload p).
Proof.
  intros Hinv. unfold on_beforeunload.
  destruct (truthy_timer (statusInterval p)); [|done].
  by apply clearInterval_inv.
Qed.

Lemma on_file_change_inv (f : option File) (p : Page) :
  page_inv p → page_inv (on_file_change f p).
Proof.
  intros Hinv. unfold on_file_change.
  destruct f as [file|]; [|done].
  repeat case_match; by apply (inv_frame p).
Qed.

Lemma step_inv (p p' : Page) (e : Event) :
  page_inv p → step p e = Some p' → page_inv p'.
Proof.
  intros Hinv Hstep.
  destruct e as [f|content| |t|r a| |]; simpl in Hstep.
  - injection Hstep as Heq; subst p'.
    apply on_file_change_inv. by apply (inv_frame p).
  - destruct (readers p); [discriminate|].
    injection Hstep as Heq; subst p'. by apply (inv_frame p).
  - injection Hstep as Heq; subst p'.
    apply fetch_inv. by apply (inv_frame p).
  - case_bool_decide; [|discriminate].
    injection Hstep as Heq; subst p'. by apply checkBatchStatus_inv.
  - destruct (find_request r (pending p)) as [rq|] eqn:Hfind; [|discriminate].
    set (q := set_pending (drop_request r (pending p)) p) in *.
    assert (Hq : page_inv q).
    { destruct Hinv as (H1 & H2 & H3 & H4). repeat split; try done.
      intros e He. apply H4. by apply elem_of_drop_request in He. }
    clearbody q. clear Hinv Hfind.
    destruct rq, a; simpl in Hstep; try discriminate;
      injection Hstep as Heq; subst p'.
    + by apply on_submit_resume_inv.
    + by apply checkBatchStatus_resume_inv.
    + by apply showBatchResults_resume_inv.
  - injection Hstep as Heq; subst p'.
    eapply inv_frame; [..|apply (on_reset_inv p Hinv)]; reflexivity.
  - injection Hstep as Heq; subst p'. by apply on_beforeunload_inv.
Qed.

Lemma run_inv (evs : list Event) (p p' : Page) :
  page_inv p → run p evs = Some p' → page_inv p'.
Proof.
  revert p. induction evs as [|e evs IH]; intros p Hinv Hrun; simpl in Hrun.
  - by injection Hrun as <-.
  - destruct (step p e) as [q|] eqn:Hstep; [|discriminate].
    eapply IH; [|exact Hrun]. by eapply step_inv.
Qed.

Lemma reachable_inv (p : Page) : reachable p → page_inv p.
Proof. intros [evs Hrun]. eapply run_inv; [apply init_inv | exact Hrun]. Qed.

Lemma no_status_in_nil (b : jsstring) (P : Prop) : ReqStatus b ∈ [] → P.
Proof. intros H. by apply not_elem_of_nil in H. Qed.

Lemma startStatusCheck_frame (p : Page) :
  sent (startStatusCheck p) = sent p ∧
  batchId (startStatusCheck p) = batchId p ∧
  pending (startStatusCheck p) = pending p ∧
  next_request (startStatusCheck p) = next_request p.
Proof.
  unfold startStatusCheck, clearInterval.
  destruct (truthy_timer (statusInterval p)); [|done].
  by destruct (statusInterval p).
Qed.

Lemma clearInterval_frame (t : option nat) (p : Page) :
  timers (clearInterval t p) ⊆ timers p ∧
  batchId (clearInterval t p) = batchId p ∧
  sent (clearInterval t p) = sent p.
Proof.
  destruct t as [i|]; simpl; [|done].
  split; [|done]. by intros x [Hx _]%elem_of_difference.
Qed.

Lemma resume_sent (rq : Request) (a : Answer) (p p' : Page) :
  resume rq a p = Some p' →
  ∃ new, sent p' = sent p ++ new ∧ ∀ b, ReqStatus b ∉ new.
Proof.
  intros Hres.
  assert (Hnil : ∀ q, sent q = sent p →
            ∃ new, sent q = sent p ++ new ∧ ∀ b, ReqStatus b ∉ new).
  { intros q Hq. exists []. split; [by rewrite app_nil_r|].
    intros b. apply not_elem_of_nil. }
  destruct rq, a; simpl in Hres; try discriminate;
    injection Hres as Heq; subst p'.
  - apply Hnil. unfold on_submit_resume.
    destruct o as [m|ok data]; [done|].
    destruct ok; simpl; [|done].
    destruct (truthy_opt (sd_error data)); [done|].
    exact (proj1 (startStatusCheck_frame
                    (showBatchStatus (set_batchId (sd_batch_id data) p)))).
  - unfold checkBatchStatus_resume.
    destruct o as [m|ok status]; [by apply Hnil|].
    destruct (truthy_opt (st_error status)).
    { apply Hnil. apply (clearInterval_frame (statusInterval p) p). }
    repeat case_bool_decide.
    + exists [ReqResults (batchId p)]. split.
      * unfold showBatchResults, fetch. simpl. f_equal; [|f_equal].
        -- apply (clearInterval_frame (statusInterval p)
                    (updateStatusDisplay status p)).
        -- f_equal. apply (clearInterval_frame (statusInterval p)
                    (updateStatusDisplay status p)).
      * intros b Hb. apply list_elem_of_singleton in Hb. discriminate.
    + apply Hnil. apply (clearInterval_frame (statusInterval p)
                           (updateStatusDisplay status p)).
    + by apply Hnil.
  - apply Hnil. unfold showBatchResults_resume.
    destruct o as [m|ok data]; [done|]. by case_match.
Qed.

Lemma step_sent (p p' : Page) (e : Event) :
  step p e = Some p' →
  ∃ new, sent p' = sent p ++ new ∧
         ∀ b, ReqStatus b ∈ new → batchId p = Some b ∧ timers p ≠ ∅.
Proof.
  intros Hstep.
  assert (Hnil : ∀ q, sent q = sent p →
            ∃ new, sent q = sent p ++ new ∧
              ∀ b, ReqStatus b ∈ new → batchId p = Some b ∧ timers p ≠ ∅).
  { intros q Hq. exists []. split; [by rewrite app_nil_r|].
    intros b; apply no_status_in_nil. }
  destruct e as [f|content| |t|r a| |]; simpl in Hstep.
  - injection Hstep as Heq; subst p'. apply Hnil.
    unfold on_file_change.
    destruct f as [file|]; [|done]. by repeat case_match.
  - destruct (readers p); [discriminate|].
    injection Hstep as Heq; subst p'. by apply Hnil.
  - injection Hstep as Heq; subst p'. exists [ReqSubmit (fileInput p)].
    split; [done|]. intros b Hb. apply list_elem_of_singleton in Hb.
    discriminate.
  - case_bool_decide as Ht; [|discriminate].
    injection Hstep as Heq; subst p'. unfold checkBatchStatus.
    destruct (batchId p) as [b|] eqn:Hb; simpl; [|by apply Hnil].
    destruct (truthy_str b); simpl; [|by apply Hnil].
    exists [ReqStatus b]. split; [done|].
    intros b' Hb'. apply list_elem_of_singleton in Hb'.
    injection Hb' as ->. split; [done | set_solver].
  - destruct (find_request r (pending p)) as [rq|]; [|discriminate].
    destruct (resume_sent _ _ _ _ Hstep) as (new & Hs & Hnew).
    exists new. split; [exact Hs|]. intros b Hb. by destruct (Hnew b).
  - injection Hstep as Heq; subst p'. apply Hnil.
    unfold on_reset, clearInterval. simpl. by repeat case_match.
  - injection Hstep as Heq; subst p'. apply Hnil.
    unfold on_beforeunload, clearInterval. by repeat case_match.
Qed.

Lemma may_poll_shrink (p p' : Page) (ids : list jsstring) :
  timers p' ⊆ timers p → batchId p' = batchId p →
  may_poll p ids → may_poll p' ids.
Proof.
  intros Hsub Hid Hp b Hb Hne. apply Hp; [congruence|]. set_solver.
Qed.

Lemma may_poll_weaken (p : Page) (ids extra : list jsstring) :
  may_poll p ids → may_poll p (ids ++ extra).
Proof. intros Hp b Hb Hne. apply elem_of_app. left. by apply Hp. Qed.

Lemma resume_may_poll (rq : Request) (r : nat) (a : Answer) (p p' : Page)
    (ids : list jsstring) :
  may_poll p ids → resume rq a p = Some p' →
  may_poll p' (ids ++ handed_out [EvAnswer r a]).
Proof.
  intros Hp Hres.
  destruct rq, a; simpl in Hres; try discriminate;
    injection Hres as Heq; subst p'.
  - unfold on_submit_resume.
    destruct o as [m|ok data]; [by apply may_poll_weaken|].
    destruct ok; simpl; [|by apply may_poll_weaken].
    destruct (truthy_opt (sd_error data)) eqn:Herr; [by apply may_poll_weaken|].
    intros b Hb _. apply elem_of_app. right.
    assert (Hid : sd_batch_id data = Some b).
    { rewrite <- Hb. symmetry.
      exact (proj1 (proj2 (startStatusCheck_frame
               (showBatchStatus (set_batchId (sd_batch_id data) p))))). }
    rewrite Hid. apply list_elem_of_here.
  - apply may_poll_weaken. unfold checkBatchStatus_resume.
    destruct o as [m|ok status]; [done|].
    destruct (truthy_opt (st_error status)).
    { apply (may_poll_shrink p); [| |done]; simpl;
        apply (clearInterval_frame (statusInterval p) p). }
    repeat case_bool_decide; [| |done].
    + apply (may_poll_shrink p); [| |done]; simpl;
        apply (clearInterval_frame (statusInterval p)
                 (updateStatusDisplay status p)).
    + apply (may_poll_shrink p); [| |done]; simpl;
        apply (clearInterval_frame (statusInterval p)
                 (updateStatusDisplay status p)).
  - apply may_poll_weaken. unfold showBatchResults_resume.
    destruct o as [m|ok data]; [done|]. by case_match.
Qed.

Lemma step_may_poll (p p' : Page) (e : Event) (ids : list jsstring) :
  may_poll p ids → step p e = Some p' → may_poll p' (ids ++ handed_out [e]).
Proof.
  intros Hp Hstep.
  destruct e as [f|content| |t|r a| |]; simpl in Hstep.
  - injection Hstep as Heq; subst p'. apply may_poll_weaken.
    apply (may_poll_shrink p); [| |done];
      unfold on_file_change; destruct f; try done; by repeat case_match.
  - destruct (readers p); [discriminate|].
    injection Hstep as Heq; subst p'. by apply may_poll_weaken.
  - injection Hstep as Heq; subst p'. by apply may_poll_weaken.
  - case_bool_decide; [|discriminate].
    injection Hstep as Heq; subst p'. apply may_poll_weaken.
    apply (may_poll_shrink p); [| |done];
      unfold checkBatchStatus; by case_match.
  - destruct (find_request r (pending p)) as [rq|]; [|discriminate].
    by apply (resume_may_poll rq r a
                (set_pending (drop_request r (pending p)) p)).
  - injection Hstep as Heq; subst p'. intros b Hb. discriminate Hb.
  - injection Hstep as Heq; subst p'. apply may_poll_weaken.
    unfold on_beforeunload. case_match; [|done].
    apply (may_poll_shrink p); [| |done];
      apply (clearInterval_frame (statusInterval p) p).
Qed.

Lemma handed_out_cons (e : Event) (evs : list Event) :
  handed_out (e :: evs) = handed_out [e] ++ handed_out evs.
Proof.
  destruct e as [| | | |r [[m|[|] data]| |]| |]; try reflexivity.
  simpl. by repeat case_match.
Qed.

Lemma run_sent (evs : list Event) (p p' : Page) (ids : list jsstring) :
  may_poll p ids → run p evs = Some p' →
  ∃ new, sent p' = sent p ++ new ∧
         ∀ b, ReqStatus b ∈ new → b ∈ ids ++ handed_out evs.
Proof.
  revert p ids. induction evs as [|e evs IH]; intros p ids Hp Hrun;
    simpl in Hrun.
  - injection Hrun as <-. exists []. split; [by rewrite app_nil_r|].
    intros b; apply no_status_in_nil.
  - destruct (step p e) as [q|] eqn:Hstep; [|discriminate].
    destruct (step_sent p q e Hstep) as (new1 & Hs1 & Hnew1).
    destruct (IH q _ (step_may_poll p q e ids Hp Hstep) Hrun)
      as (new2 & Hs2 & Hnew2).
    exists (new1 ++ new2). split; [by rewrite Hs2, Hs1, app_assoc|].
    intros b [Hb|Hb]%elem_of_app.
    + destruct (Hnew1 b Hb) as [Hid Hne].
      apply elem_of_app. left. by apply Hp.
    + rewrite handed_out_cons, app_assoc. by apply Hnew2.
Qed.

Lemma no_timer_quiet (p : Page) : timers p = ∅ → quiet p.
Proof.
  intros Hempty evs b. unfold issued.
  destruct (run p evs) as [p'|] eqn:Hrun; [|apply no_status_in_nil].
  destruct (run_sent evs p p' [] ) as (new & Hs & Hnew); [|done|].
  { intros b' _ Hne. by destruct Hne. }
  rewrite Hs, drop_app_length. apply Hnew.
Qed.

Lemma run_app (evs1 evs2 : list Event) (p : Page) :
  run p (evs1 ++ evs2) =
    match run p evs1 with Some q => run q evs2 | None => None end.
Proof.
  revert p. induction evs1 as [|e evs1 IH]; intros p; simpl; [done|].
  destruct (step p e); [apply IH | done].
Qed.

Lemma reachable_step (p p' : Page) (e : Event) :
  reachable p → step p e = Some p' → reachable p'.
Proof.
  intros [evs Hrun] Hstep. exists (evs ++ [e]).
  rewrite run_app, Hrun. simpl. by rewrite Hstep.
Qed.

Lemma timers_at_most_one (p : Page) : page_inv p → size (timers p) ≤ 1.
Proof.
  intros (Hcur & _).
  destruct (statusInterval p) as [i|] eqn:Hi.
  - rewrite <- (size_singleton (C:=gset nat) i). apply subseteq_size.
    intros t Ht. specialize (Hcur t Ht). apply elem_of_singleton. congruence.
  - replace (timers p) with (∅ : gset nat); [rewrite size_empty; lia|].
    symmetry. apply set_eq. intros t. split; [|set_solver].
    intros Ht. by specialize (Hcur t Ht).
Qed.

Lemma terminal_answer_clears (p : Page) (ok : bool) (status : StatusObj) :
  page_inv p →
  truthy_opt (st_error status) = true ∨
    st_status status = lit "completed" ∨ st_status status = lit "failed" →
  timers (checkBatchStatus_resume (Parsed ok status) p) = ∅.
Proof.
  intros Hinv Hterm. unfold checkBatchStatus_resume.
  destruct (truthy_opt (st_error status)).
  { simpl. by apply clear_current_timer. }
  repeat case_bool_decide.
  - simpl. apply (clear_current_timer (updateStatusDisplay status p)).
    by apply (inv_frame p).
  - simpl. apply (clear_current_timer (updateStatusDisplay status p)).
    by apply (inv_frame p).
  - by destruct Hterm as [?|[?|?]].
Qed.

Lemma drop_request_inv (r : nat) (p : Page) :
  page_inv p → page_inv (set_pending (drop_request r (pending p)) p).
Proof.
  intros (H1 & H2 & H3 & H4). repeat split; try done.
  intros e He. apply H4. by apply elem_of_drop_request in He.
Qed.

(** C10. On any page the script can reach, at most one polling timer
    is scheduled, and it is the one [statusInterval] names.
    [startStatusCheck] leaves exactly the timer it creates; answering a
    submission never leaves a second timer; a status answer that
    carries an error or a terminal status, a form reset and leaving the
    page each leave no timer.  After a form reset [batchId] is [null]
    and a tick that still runs [checkBatchStatus] sends nothing. *)
Theorem one_polling_timer (p : Page) (Hreach : reachable p) :
  size (timers p) ≤ 1 ∧
  (∀ t, t ∈ timers p → statusInterval p = Some t) ∧
  timers (startStatusCheck p) = {[next_timer p]} ∧
  (∀ r f o p',
     find_request r (pending p) = Some (ReqSubmit f) →
     step p (EvAnswer r (AnsSubmit o)) = Some p' →
     size (timers p') ≤ 1) ∧
  (∀ r b ok status,
     find_request r (pending p) = Some (ReqStatus b) →
     truthy_opt (st_error status) = true ∨
       st_status status = lit "completed" ∨ st_status status = lit "failed" →
     ∃ p', step p (EvAnswer r (AnsStatus (Parsed ok status))) = Some p' ∧
           timers p' = ∅) ∧
  (∃ p', step p EvReset = Some p' ∧ timers p' = ∅ ∧ batchId p' = None ∧
         statusInterval p' = None ∧ checkBatchStatus p' = p') ∧
  (∃ p', step p EvUnload = Some p' ∧ timers p' = ∅).
Proof.
  pose proof (reachable_inv p Hreach) as Hinv.
  split; [by apply timers_at_most_one|].
  split; [apply Hinv|].
  split; [apply (startStatusCheck_fields p Hinv)|].
  split.
  { intros r f o p' _ Hstep. apply timers_at_most_one, reachable_inv.
    by apply (reachable_step p p' (EvAnswer r (AnsSubmit o))). }
  split.
  { intros r b ok status Hfind Hterm. unfold step. rewrite Hfind.
    eexists. split; [reflexivity|].
    apply (terminal_answer_clears
             (set_pending (drop_request r (pending p)) p)); [|done].
    by apply drop_request_inv. }
  split.
  { eexists. split; [reflexivity|].
    destruct (on_reset_fields p Hinv) as (Ht & Hs & Hb & _).
    repeat split; simpl; done. }
  eexists. split; [reflexivity|]. by apply on_beforeunload_timers.
Qed.

Lemma one_polling_timer_witness :
  size (timers polling_page) ≤ 1 ∧
  ∃ p', step polling_page EvReset = Some p' ∧ timers p' = ∅ ∧
        batchId p' = None ∧ statusInterval p' = None ∧
        checkBatchStatus p' = p'.
Proof.
  assert (Hreach : reachable polling_page)
    by (exists polling_run; vm_compute; reflexivity).
  pose proof (one_polling_timer polling_page Hreach)
    as (H1 & _ & _ & _ & _ & H2 & _).
  exact (conj H1 H2).
Defined.

End PageInvariant.

(** *** Polling *)

Section Polling.
Import Js Batch.

(** C1, as stated, fails: with one status request awaiting its answer,
    the next tick sends a second one for the same job. *)
Lemma overlapping_polls :
  status_in_flight polling_page = [(1, ReqStatus (lit "b1"))] ∧
  ∃ p',
    step polling_page (EvTick 1) = Some p' ∧
    run init overlap_run = Some p' ∧
    sent p' = sent polling_page ++ [ReqStatus (lit "b1")] ∧
    status_in_flight p' =
      [(1, ReqStatus (lit "b1")); (2, ReqStatus (lit "b1"))].
Proof.
  split; [vm_compute; reflexivity|].
  eexists. split; [vm_compute; reflexivity|].
  repeat split; vm_compute; reflexivity.
Qed.

(** C1, amended. A tick of a scheduled timer sends one more status
    request for the job in [batchId], whatever is still awaiting its
    answer; it does nothing only when [batchId] is [null] or empty. *)
Theorem tick_polls_regardless (p : Page) (t : nat) (Ht : t ∈ timers p) :
  (∀ b, batchId p = Some b → b ≠ [] →
     step p (EvTick t) = Some (fetch (ReqStatus b) p) ∧
     sent (fetch (ReqStatus b) p) = sent p ++ [ReqStatus b] ∧
     status_in_flight (fetch (ReqStatus b) p) =
       status_in_flight p ++ [(next_request p, ReqStatus b)]) ∧
  (truthy_id (batchId p) = false → step p (EvTick t) = Some p).
Proof.
  unfold step. rewrite bool_decide_eq_true_2 by done.
  unfold checkBatchStatus. split.
  - intros b Hb Hne. rewrite Hb. simpl.
    destruct b as [|c b]; [done|]. simpl.
    split; [reflexivity|]. split; [reflexivity|].
    unfold status_in_flight. simpl. by rewrite filter_app.
  - by intros ->.
Qed.

Lemma tick_polls_regardless_witness :
  step polling_page (EvTick 1)
    = Some (fetch (ReqStatus (lit "b1")) polling_page) ∧
  status_in_flight (fetch (ReqStatus (lit "b1")) polling_page) =
    status_in_flight polling_page
      ++ [(next_request polling_page, ReqStatus (lit "b1"))].
Proof.
  assert (Ht : 1 ∈ timers polling_page)
    by (apply (bool_decide_unpack _); vm_compute; exact I).
  destruct (tick_polls_regardless polling_page 1 Ht) as [Hpoll _].
  destruct (Hpoll (lit "b1")) as (H1 & _ & H3).
  - vm_compute. reflexivity.
  - discriminate.
  - exact (conj H1 H3).
Defined.

(** C2, as stated, fails: after a status request has failed in
    transport the timer is still scheduled, no error is shown, and the
    next tick asks again. *)
Lemma transport_error_keeps_polling :
  ∃ p,
    run init transport_error_run = Some p ∧
    timers p = {[1]} ∧ errorVisible p = false ∧
    status_in_flight p = [] ∧
    issued p [EvTick 1] = [ReqStatus (lit "b1")].
Proof.
  eexists. split; [vm_compute; reflexivity|].
  repeat split; vm_compute; reflexivity.
Qed.

(** C2, amended. A status answer whose body carries an [error] (such
    as the one for an unknown job) stops the timer and shows that error;
    no status request follows unless a new submission starts a new job.
    A status request that fails in transport is only logged to the
    console: timer, [batchId] and error banner stay as they were. *)
Theorem status_error_stops_polling (p : Page) (r : nat) (b : jsstring)
    (ok : bool) (status : StatusObj) (e : jsstring) :
  reachable p →
  find_request r (pending p) = Some (ReqStatus b) →
  st_error status = Some e → e ≠ [] →
  (∃ p', step p (EvAnswer r (AnsStatus (Parsed ok status))) = Some p' ∧
         timers p' = ∅ ∧ errorVisible p' = true ∧
         errorMessage p' = msg_status_error_prefix ++ e ∧
         sent p' = sent p ∧ quiet p') ∧
  (∀ m, ∃ p', step p (EvAnswer r (AnsStatus (Rejected m))) = Some p' ∧
         timers p' = timers p ∧ statusInterval p' = statusInterval p ∧
         batchId p' = batchId p ∧
         errorVisible p' = errorVisible p ∧
         errorMessage p' = errorMessage p ∧
         console p' = console p ++ [LogStatusError m] ∧
         sent p' = sent p).
Proof.
  intros Hreach Hfind He Hne.
  pose proof (reachable_inv p Hreach) as Hinv.
  unfold step. rewrite Hfind. split.
  - eexists. split; [reflexivity|].
    assert (Htr : truthy_opt (st_error status) = true).
    { rewrite He. by destruct e. }
    assert (Hclear :
      timers (checkBatchStatus_resume (Parsed ok status)
                (set_pending (drop_request r (pending p)) p)) = ∅).
    { apply terminal_answer_clears; [by apply drop_request_inv | by left]. }
    split; [exact Hclear|].
    split; [|split; [|split; [|by apply no_timer_quiet]]];
      unfold checkBatchStatus_resume; rewrite Htr.
    + reflexivity.
    + simpl. by rewrite He.
    + apply (clearInterval_frame (statusInterval p)
               (set_pending (drop_request r (pending p)) p)).
  - intros m. eexists. split; [reflexivity|]. by repeat split.
Qed.

Lemma status_error_stops_polling_witness :
  ∃ p',
    step polling_page
      (EvAnswer 1 (AnsStatus
         (Parsed false (status_of "waiting" (Some (lit "not found"))))))
      = Some p' ∧
    timers p' = ∅ ∧ errorVisible p' = true ∧
    errorMessage p' = msg_status_error_prefix ++ lit "not found".
Proof.
  assert (Hreach : reachable polling_page)
    by (exists polling_run; vm_compute; reflexivity).
  destruct (status_error_stops_polling polling_page 1 (lit "b1") false
              (status_of "waiting" (Some (lit "not found")))
              (lit "not found") Hreach)
    as [(p' & Hstep & Ht & Hv & Hm & _) _].
  - vm_compute. reflexivity.
  - reflexivity.
  - discriminate.
  - exists p'. exact (conj Hstep (conj Ht (conj Hv Hm))).
Defined.

Lemma find_request_fresh (r : nat) (rq : Request) (l : list (nat * Request)) :
  (∀ e, e ∈ l → e.1 < r) → find_request r (l ++ [(r, rq)]) = Some rq.
Proof.
  induction l as [|[r' rq'] l IH]; intros Hlt; simpl.
  - by rewrite Nat.eqb_refl.
  - assert (r' < r) by (apply (Hlt (r', rq')), list_elem_of_here).
    rewrite (proj2 (Nat.eqb_neq r' r)) by lia.
    apply IH. intros e He. apply Hlt. by apply list_elem_of_further.
Qed.

(** C3, as stated, fails: a status answer that says ['completed'] and
    carries an [error] is handled as an error.  The timer stops and the
    error is shown, but no results are requested, the result section
    stays hidden and neither button is bound. *)
Lemma completed_with_error_fetches_nothing :
  reachable polling_page ∧
  find_request 1 (pending polling_page) = Some (ReqStatus (lit "b1")) ∧
  st_status completed_with_error = lit "completed" ∧
  ∃ p',
    step polling_page
      (EvAnswer 1 (AnsStatus (Parsed true completed_with_error))) = Some p' ∧
    timers p' = ∅ ∧ errorVisible p' = true ∧
    errorMessage p' = msg_status_error_prefix ++ lit "oops" ∧
    sent p' = sent polling_page ∧ pending p' = [] ∧
    (∀ b, ReqResults b ∉ sent p') ∧
    resultsVisible p' = false ∧ downloadBound p' = false ∧
    viewBound p' = None.
Proof.
  split; [exists polling_run; vm_compute; reflexivity|].
  split; [vm_compute; reflexivity|].
  split; [vm_compute; reflexivity|].
  eexists. split; [vm_compute; reflexivity|].
  split_and!; try (vm_compute; reflexivity).
  intros b Hin. apply list_elem_of_In in Hin. vm_compute in Hin.
  destruct Hin as [H|[H|[]]]; discriminate H.
Qed.

(** C3, amended. For a status answer that carries an [error] only when
    it says ['failed']: when it says ['completed'] the timer is stopped
    and the results of the job are requested; their answer, if it
    carries no error, shows the result section and binds the download
    and the summary buttons.  When it says ['failed'] the timer is
    stopped and an error message is shown.  In both cases no status
    request follows unless a new submission starts a new job. *)
Theorem terminal_status_stops_polling (p : Page) (r : nat) (b : jsstring)
    (ok : bool) (status : StatusObj) :
  reachable p →
  find_request r (pending p) = Some (ReqStatus b) →
  error_only_when_failed status →
  (st_status status = lit "completed" →
   ∃ p', step p (EvAnswer r (AnsStatus (Parsed ok status))) = Some p' ∧
         timers p' = ∅ ∧
         sent p' = sent p ++ [ReqResults (batchId p)] ∧
         find_request (next_request p) (pending p')
           = Some (ReqResults (batchId p)) ∧
         quiet p' ∧
         ∀ ok' data, truthy_opt (rd_error data) = false →
           ∃ p'', step p' (EvAnswer (next_request p)
                             (AnsResults (Parsed ok' data))) = Some p'' ∧
                  resultsVisible p'' = true ∧ downloadBound p'' = true ∧
                  viewBound p'' = Some data ∧ timers p'' = ∅) ∧
  (st_status status = lit "failed" →
   ∃ p', step p (EvAnswer r (AnsStatus (Parsed ok status))) = Some p' ∧
         timers p' = ∅ ∧ errorVisible p' = true ∧
         errorMessage p' =
           (if truthy_opt (st_error status)
            then msg_status_error_prefix ++ default [] (st_error status)
            else msg_analysis_failed_prefix ++ msg_unknown_error) ∧
         sent p' = sent p ∧ quiet p').
Proof.
  intros Hreach Hfind Hcontract.
  pose proof (reachable_inv p Hreach) as Hinv.
  set (q := set_pending (drop_request r (pending p)) p).
  assert (Hq : page_inv q) by (by apply drop_request_inv).
  assert (Hstep : step p (EvAnswer r (AnsStatus (Parsed ok status)))
                  = Some (checkBatchStatus_resume (Parsed ok status) q)).
  { unfold step. by rewrite Hfind. }
  split; intros Hstatus.
  - assert (Herr : truthy_opt (st_error status) = false).
    { destruct (truthy_opt (st_error status)) eqn:Htr; [|done].
      specialize (Hcontract Htr). rewrite Hstatus in Hcontract.
      discriminate Hcontract. }
    assert (Hclear : timers (checkBatchStatus_resume (Parsed ok status) q) = ∅).
    { apply terminal_answer_clears; [done | by right; left]. }
    exists (checkBatchStatus_resume (Parsed ok status) q).
    split; [exact Hstep|]. split; [exact Hclear|].
    assert (Hshape : checkBatchStatus_resume (Parsed ok status) q =
              showBatchResults
                (clearInterval (statusInterval p)
                   (updateStatusDisplay status q))).
    { unfold checkBatchStatus_resume. rewrite Herr.
      by rewrite bool_decide_eq_true_2. }
    assert (Hframe : ∀ x, sent (clearInterval (statusInterval p) x) = sent x ∧
              pending (clearInterval (statusInterval p) x) = pending x ∧
              next_request (clearInterval (statusInterval p) x)
                = next_request x ∧
              batchId (clearInterval (statusInterval p) x) = batchId x).
    { intros x. by destruct (statusInterval p). }
    assert (Hpending : pending (checkBatchStatus_resume (Parsed ok status) q)
              = drop_request r (pending p)
                  ++ [(next_request p, ReqResults (batchId p))]).
    { rewrite Hshape. unfold showBatchResults, fetch. simpl.
      destruct (Hframe (updateStatusDisplay status q)) as (_ & -> & -> & ->).
      reflexivity. }
    split.
    { rewrite Hshape. unfold showBatchResults, fetch. simpl.
      destruct (Hframe (updateStatusDisplay status q)) as (-> & _ & _ & ->).
      reflexivity. }
    assert (Hfound :
      find_request (next_request p)
        (pending (checkBatchStatus_resume (Parsed ok status) q))
      = Some (ReqResults (batchId p))).
    { rewrite Hpending. apply find_request_fresh.
      intros e He. apply Hinv. by apply elem_of_drop_request in He. }
    split; [exact Hfound|].
    split; [by apply no_timer_quiet|].
    intros ok' data Hdata. unfold step. rewrite Hfound. unfold resume.
    eexists. split; [reflexivity|].
    unfold showBatchResults_resume. rewrite Hdata.
    repeat split; try reflexivity. exact Hclear.
  - assert (Hclear : timers (checkBatchStatus_resume (Parsed ok status) q) = ∅).
    { apply terminal_answer_clears; [done | by right; right]. }
    exists (checkBatchStatus_resume (Parsed ok status) q).
    split; [exact Hstep|]. split; [exact Hclear|].
    split; [|split; [|split; [|by apply no_timer_quiet]]];
      unfold checkBatchStatus_resume;
      destruct (truthy_opt (st_error status)) eqn:Htr; try reflexivity.
    + rewrite Hstatus. reflexivity.
    + rewrite Hstatus. simpl.
      unfold or_str. unfold truthy_opt in Htr.
      destruct (st_error status) as [e|]; [by rewrite Htr | done].
    + apply (clearInterval_frame (statusInterval p) q).
    + rewrite Hstatus. simpl.
      apply (clearInterval_frame (statusInterval p)
               (updateStatusDisplay status q)).
Qed.

Lemma terminal_status_stops_polling_witness :
  ∃ p',
    step polling_page
      (EvAnswer 1 (AnsStatus (Parsed true (status_of "completed" None))))
      = Some p' ∧
    timers p' = ∅ ∧
    sent p' = sent polling_page ++ [ReqResults (Some (lit "b1"))].
Proof.
  assert (Hreach : reachable polling_page)
    by (exists polling_run; vm_compute; reflexivity).
  destruct (terminal_status_stops_polling polling_page 1 (lit "b1") true
              (status_of "completed" None) Hreach)
    as [Hcompleted _].
  - vm_compute. reflexivity.
  - intros Hfalse. discriminate Hfalse.
  - destruct Hcompleted as (p' & Hstep & Ht & Hs & _); [reflexivity|].
    exists p'. exact (conj Hstep (conj Ht Hs)).
Defined.

(** A whole run: submission, one poll answered ['running'], one
    answered ['completed'], and the results. *)
Example completed_run :
  ∃ p,
    run init
      [EvSubmit; submit_ok 0 "b1";
       EvTick 1; EvAnswer 1 (AnsStatus (Parsed true (status_of "running" None)));
       EvTick 1; EvAnswer 2 (AnsStatus (Parsed true (status_of "completed" None)));
       EvAnswer 3 (AnsResults (Parsed true
         {| rd_error := None; rd_status := None; rd_results := Some [] |}))]
      = Some p ∧
    sent p = [ReqSubmit None; ReqStatus (lit "b1"); ReqStatus (lit "b1");
              ReqResults (Some (lit "b1"))] ∧
    timers p = ∅ ∧ pending p = [] ∧
    resultsVisible p = true ∧ downloadBound p = true ∧
    errorVisible p = false.
Proof.
  eexists. split; [vm_compute; reflexivity|].
  repeat split; vm_compute; reflexivity.
Qed.

End Polling.

(** ** The batch job store and runner *)

Section StoreProperties.
Import Server.

Lemma Get_inr (job_id : N) (st : gmap N Job) (j : Job) :
  Get job_id st = inr j ↔ st !! job_id = Some j.
Proof.
  unfold Get. destruct (st !! job_id); split; intros H; congruence.
Qed.

Lemma allowed_forward (a b : Status) : allowed a b = true ↔ forward a b.
Proof.
  split.
  - destruct a, b; simpl; intros H; try discriminate H; constructor.
  - by destruct 1.
Qed.

Lemma forward_not_from_terminal (a b : Status) :
  terminal a = true → ¬ forward a b.
Proof. intros Ht Hf. destruct Hf; discriminate Ht. Qed.

Lemma exec_status (c : Call) (st : gmap N Job) (job_id : N) (j : Job) :
  st !! job_id = Some j →
  ∃ j', exec st c !! job_id = Some j' ∧
        (status j' = status j ∨ forward (status j) (status j')).
Proof.
  intros Hj. unfold exec.
  destruct c as [job|job_id' delta|job_id' s err]; simpl.
  - unfold Create. destruct (st !! id job) eqn:Hjob; [by eauto|].
    exists j. split; [|by left].
    rewrite lookup_insert_ne; [done|]. intros Heq. congruence.
  - unfold UpdateProgress.
    destruct (st !! job_id') as [j1|] eqn:Hj1; [|by eauto].
    destruct (decide (job_id' = job_id)) as [->|Hne].
    + rewrite lookup_insert_eq. eexists. split; [done|]. left.
      replace j1 with j by congruence. reflexivity.
    + rewrite lookup_insert_ne by done. eauto.
  - unfold SetStatus.
    destruct (st !! job_id') as [j1|] eqn:Hj1; [|by eauto].
    destruct (allowed (status j1) s) eqn:Hallowed; [|by eauto].
    destruct (decide (job_id' = job_id)) as [->|Hne].
    + rewrite lookup_insert_eq. eexists. split; [done|]. right.
      replace j with j1 by congruence. by apply allowed_forward.
    + rewrite lookup_insert_ne by done. eauto.
Qed.

Lemma foldl_exec_status (calls : list Call) (st : gmap N Job) (job_id : N)
    (j : Job) :
  st !! job_id = Some j →
  ∃ j', foldl exec st calls !! job_id = Some j' ∧
        rtc forward (status j) (status j').
Proof.
  revert st j. induction calls as [|c calls IH]; intros st j Hj; simpl.
  - by exists j.
  - destruct (exec_status c st job_id j Hj) as (j1 & Hj1 & Hstep).
    destruct (IH _ _ Hj1) as (j' & Hj' & Hpath).
    exists j'. split; [done|].
    destruct Hstep as [Heq|Hfwd]; [by rewrite <- Heq | by eapply rtc_l].
Qed.

Lemma rtc_forward_terminal (a b : Status) :
  terminal a = true → rtc forward a b → b = a.
Proof.
  intros Ht Hpath. destruct Hpath as [|a b c Hf _]; [done|].
  by destruct (forward_not_from_terminal a b Ht).
Qed.

(** C5. A job's status moves only along
    [waiting -> running -> {completed, failed}]: [SetStatus] performs a
    request for the next status and rejects any other with
    [InvalidStateTransition], leaving the store as it was; whatever
    calls are made on the store, a job stays in it and its status is
    reached from the earlier one along the arrows; a terminal status
    never changes, and the only status after [waiting] is [running]. *)
Theorem status_moves_forward (st : gmap N Job) (job_id : N) (j : Job) :
  Get job_id st = inr j →
  (∀ s err, forward (status j) s →
     SetStatus job_id s err st = inr (<[job_id := with_status s err j]> st)) ∧
  (∀ s err, ¬ forward (status j) s →
     SetStatus job_id s err st = inl InvalidStateTransition ∧
     exec st (CallSetStatus job_id s err) = st) ∧
  (∀ calls, ∃ j',
     Get job_id (foldl exec st calls) = inr j' ∧
     rtc forward (status j) (status j') ∧
     (terminal (status j) = true → status j' = status j)) ∧
  (∀ s, forward waiting s → s = running) ∧
  (∀ s s', terminal s = true → ¬ forward s s').
Proof.
  intros Hj%Get_inr. split; [|split; [|split; [|split]]].
  - intros s err Hfwd. unfold SetStatus. rewrite Hj.
    by rewrite (proj2 (allowed_forward _ _) Hfwd).
  - intros s err Hnot.
    assert (Hset : SetStatus job_id s err st = inl InvalidStateTransition).
    { unfold SetStatus. rewrite Hj.
      destruct (allowed (status j) s) eqn:Ha; [|done].
      by apply allowed_forward in Ha. }
    split; [done|]. unfold exec. simpl. by rewrite Hset.
  - intros calls.
    destruct (foldl_exec_status calls st job_id j Hj) as (j' & Hj' & Hpath).
    exists j'. split; [by apply Get_inr|]. split; [done|].
    intros Ht. by apply rtc_forward_terminal.
  - intros s Hf. by inversion Hf.
  - intros s s'. apply forward_not_from_terminal.
Qed.

Lemma status_moves_forward_witness :
  SetStatus 7 completed None one_job
    = inr (<[7%N := with_status completed None
                      (new_job 7 ["005930"%string] "day" 0)]> one_job) ∧
  SetStatus 7 waiting None one_job = inl InvalidStateTransition.
Proof.
  assert (Hj : Get 7 one_job = inr (new_job 7 ["005930"%string] "day" 0))
    by (vm_compute; reflexivity).
  destruct (status_moves_forward one_job 7 _ Hj) as (Hok & Hbad & _).
  split.
  - apply Hok. constructor.
  - apply Hbad. intros Hf. inversion Hf.
Defined.

End StoreProperties.

Section RunnerProperties.
Import Server.
Variable analyze : string → string → Analysis + string.

Abbreviation job_inv := (job_inv analyze).
Abbreviation sys_inv := (sys_inv analyze).
Abbreviation sys_step := (sys_step analyze).
Abbreviation run_item := (run_item analyze).
Abbreviation failing := (failing analyze).
Abbreviation process_all := (process_all analyze).
Abbreviation run_batch := (run_batch analyze).

Lemma job_inv_frame (s s' : System) (j : Job) :
  work s' !! id j = work s !! id j → job_inv s j → job_inv s' j.
Proof. unfold Server.job_inv. by intros ->. Qed.

Lemma Submit_inr (job_id : N) (its : list string) (chart : string) (now : N)
    (st st' : gmap N Job) :
  Submit job_id its chart now st = inr st' →
  its ≠ [] ∧ st !! job_id = None ∧
  st' = <[job_id := new_job job_id its chart now]> st.
Proof.
  unfold Submit, Create. destruct its as [|c its]; [discriminate|].
  simpl. destruct (st !! job_id); [discriminate|].
  intros [= <-]. done.
Qed.

Lemma UpdateProgress_inr (job_id : N) (o : Outcome) (st st' : gmap N Job) :
  UpdateProgress job_id o st = inr st' →
  ∃ j, st !! job_id = Some j ∧ st' = <[job_id := record_outcome o j]> st.
Proof.
  unfold UpdateProgress. destruct (st !! job_id) as [j|]; [|discriminate].
  intros [= <-]. by exists j.
Qed.

Lemma SetStatus_inr (job_id : N) (s : Status) (err : option string)
    (st st' : gmap N Job) :
  SetStatus job_id s err st = inr st' →
  ∃ j, st !! job_id = Some j ∧ allowed (status j) s = true ∧
       st' = <[job_id := with_status s err j]> st.
Proof.
  unfold SetStatus. destruct (st !! job_id) as [j|]; [|discriminate].
  destruct (allowed (status j) s) eqn:Ha; [|discriminate].
  intros [= <-]. by exists j.
Qed.

Lemma split_by_error (l : list Outcome) :
  length (filter (fun o => has_error o = false) l)
    + length (filter (fun o => has_error o = true) l) = length l.
Proof.
  induction l as [|o l IH]; [done|].
  destruct (has_error o) eqn:He.
  - rewrite filter_cons_False by (rewrite He; done).
    rewrite filter_cons_True by done. simpl. lia.
  - rewrite filter_cons_True by done.
    rewrite filter_cons_False by (rewrite He; done). simpl. lia.
Qed.

(** The counters of a job after one more outcome. *)
Lemma record_outcome_counts (o : Outcome) (j : Job) :
  completed_count j
    = length (filter (fun o => has_error o = false) (results j)) →
  failed_count j
    = length (filter (fun o => has_error o = true) (results j)) →
  completed_count (record_outcome o j)
    = length (filter (fun o => has_error o = false)
                (results (record_outcome o j))) ∧
  failed_count (record_outcome o j)
    = length (filter (fun o => has_error o = true)
                (results (record_outcome o j))).
Proof.
  intros Hc Hf. simpl. rewrite !filter_app, !length_app.
  destruct (has_error o) eqn:He.
  - rewrite filter_cons_False, filter_nil by (rewrite He; done).
    rewrite filter_cons_True by done. simpl. lia.
  - rewrite filter_cons_True by done.
    rewrite filter_cons_False, filter_nil by (rewrite He; done).
    simpl. lia.
Qed.

(** The job record after its remaining items have been marked. *)
Lemma mark_not_processed_lookup (job_id : N) (remaining : list string)
    (st : gmap N Job) (j : Job) :
  st !! job_id = Some j →
  (∀ k, k ≠ job_id → mark_not_processed job_id remaining st !! k = st !! k) ∧
  ∃ j', mark_not_processed job_id remaining st !! job_id = Some j' ∧
        status j' = status j ∧ items j' = items j ∧
        chart_type j' = chart_type j ∧ total j' = total j ∧
        id j' = id j ∧
        length (results j') = length (results j) + length remaining ∧
        processed j' = processed j + length remaining ∧
        (completed_count j
           = length (filter (fun o => has_error o = false) (results j)) →
         failed_count j
           = length (filter (fun o => has_error o = true) (results j)) →
         completed_count j'
           = length (filter (fun o => has_error o = false) (results j')) ∧
         failed_count j'
           = length (filter (fun o => has_error o = true) (results j'))).
Proof.
  unfold mark_not_processed.
  revert st j. induction remaining as [|c remaining IH]; intros st j Hj.
  - split; [done|]. exists j. simpl. split_and!; try done; lia.
  - simpl. unfold exec at 2 4. simpl. unfold UpdateProgress. rewrite Hj.
    destruct (IH (<[job_id := record_outcome (not_processed c) j]> st)
                 (record_outcome (not_processed c) j))
      as (Hother & j' & Hj' & Hs & Hi & Hc & Ht & Hid & Hlen & Hp & Hcount).
    { apply lookup_insert_eq. }
    split.
    + intros k Hk. rewrite Hother by done. by rewrite lookup_insert_ne.
    + exists j'. split; [exact Hj'|]. simpl in *.
      split_and!; try done.
      * rewrite Hlen, length_app. simpl. lia.
      * rewrite Hp. unfold processed. simpl. lia.
      * intros Hc0 Hf0.
        destruct (record_outcome_counts (not_processed c) j Hc0 Hf0)
          as [Hc1 Hf1].
        by apply Hcount.
Qed.

(** A step that rewrites the record and the work of one job keeps the
    invariant of the others. *)
Lemma sys_inv_update (s : System) (job_id : N) (j' : Job)
    (st' : gmap N Job) (w' : gmap N (list string)) :
  sys_inv s →
  (∀ k, k ≠ job_id → st' !! k = store s !! k) →
  (∀ k, k ≠ job_id → w' !! k = work s !! k) →
  st' !! job_id = Some j' → id j' = job_id →
  job_inv {| store := st'; work := w' |} j' →
  sys_inv {| store := st'; work := w' |}.
Proof.
  intros [Hjobs Hwork] Hst Hw Hj' Hid Hinv'. split; simpl.
  - intros k jk Hk. destruct (decide (k = job_id)) as [->|Hne].
    + replace jk with j' by congruence. done.
    + rewrite Hst in Hk by done.
      destruct (Hjobs k jk Hk) as [Hidk Hinvk]. split; [done|].
      apply (job_inv_frame s); [|done]. simpl. rewrite Hidk. by apply Hw.
  - intros k Hk. destruct (decide (k = job_id)) as [->|Hne].
    + by rewrite Hj'.
    + rewrite Hw in Hk by done. rewrite Hst by done. by apply Hwork.
Qed.

Lemma sys_step_inv (s s' : System) : sys_inv s → sys_step s s' → sys_inv s'.
Proof.
  intros Hinv Hstep. pose proof Hinv as [Hjobs Hwork].
  destruct Hstep as
    [job_id its chart now s st' Hsub
    |job_id before code after j s st' Hw Hne Hj Hupd
    |job_id code j s st1 st' Hw Hj Hupd Hset
    |job_id remaining e s st' Hw Hset].
  - apply Submit_inr in Hsub as (Hne & Hfree & ->).
    apply (sys_inv_update s job_id (new_job job_id its chart now));
      try done.
    + intros k Hk. by rewrite lookup_insert_ne.
    + intros k Hk. by rewrite lookup_insert_ne.
    + apply lookup_insert_eq.
    + unfold Server.job_inv. simpl. rewrite lookup_insert_eq.
      repeat split; try done. by exists [].
  - apply UpdateProgress_inr in Hupd as (j0 & Hj0 & ->).
    replace j0 with j in * by congruence. clear Hj0.
    destruct (Hjobs job_id j Hj)
      as (Hid & Htot & Hnw & Hc & Hf & Hrest).
    rewrite Hid, Hw in Hrest. destruct Hrest as (Hrun & _ & done & Hres & Hperm).
    apply (sys_inv_update s job_id
             (record_outcome (run_item (chart_type j) code) j)); try done.
    + intros k Hk. by rewrite lookup_insert_ne.
    + intros k Hk. by rewrite lookup_insert_ne.
    + apply lookup_insert_eq.
    + destruct (record_outcome_counts (run_item (chart_type j) code) j Hc Hf)
        as [Hc' Hf'].
      unfold Server.job_inv.
      split; [done|]. split; [done|]. split; [exact Hc'|]. split; [exact Hf'|].
      simpl. rewrite Hid, lookup_insert_eq.
      split; [done|]. split; [done|].
      exists (done ++ [code]). split.
      * by rewrite fmap_app, Hres.
      * rewrite <- Hperm, <- !app_assoc. simpl.
        apply Permutation_app_head, Permutation_middle.
  - apply UpdateProgress_inr in Hupd as (j0 & Hj0 & ->).
    replace j0 with j in * by congruence. clear Hj0.
    apply SetStatus_inr in Hset as (j1 & Hj1 & Hallowed & ->).
    rewrite lookup_insert_eq in Hj1. injection Hj1 as <-.
    destruct (Hjobs job_id j Hj)
      as (Hid & Htot & Hnw & Hc & Hf & Hrest).
    rewrite Hid, Hw in Hrest. destruct Hrest as (Hrun & _ & done & Hres & Hperm).
    apply (sys_inv_update s job_id
             (with_status completed None
                (record_outcome (run_item (chart_type j) code) j)));
      try done.
    + intros k Hk. by rewrite !lookup_insert_ne.
    + intros k Hk. by rewrite lookup_delete_ne.
    + apply lookup_insert_eq.
    + destruct (record_outcome_counts (run_item (chart_type j) code) j Hc Hf)
        as [Hc' Hf'].
      unfold Server.job_inv.
      split; [done|]. split; [done|]. split; [exact Hc'|]. split; [exact Hf'|].
      simpl. rewrite Hid, lookup_delete_eq.
      assert (Hdone : done ++ [code] ≡ₚ items j) by done.
      split; [done|]. split.
      * rewrite length_app, Hres, length_fmap, <- Hdone, length_app. done.
      * intros _. exists (done ++ [code]). split; [|done].
        by rewrite fmap_app, Hres.
  - apply SetStatus_inr in Hset as (j1 & Hj1 & Hallowed & ->).
    assert (is_Some (store s !! job_id)) as [j Hj] by (apply Hwork; eauto).
    destruct (Hjobs job_id j Hj)
      as (Hid & Htot & Hnw & Hc & Hf & Hrest).
    rewrite Hid, Hw in Hrest. destruct Hrest as (Hrun & _ & done & Hres & Hperm).
    destruct (mark_not_processed_lookup job_id remaining (store s) j Hj)
      as (Hother & j' & Hj' & Hs' & Hi' & Hct' & Ht' & Hid' & Hlen' & _ & Hcount).
    replace j1 with j' in * by congruence. clear Hj1.
    destruct (Hcount Hc Hf) as [Hc' Hf'].
    apply (sys_inv_update s job_id (with_status failed (Some e) j'));
      try done.
    + intros k Hk. rewrite lookup_insert_ne by done. by apply Hother.
    + intros k Hk. by rewrite lookup_delete_ne.
    + apply lookup_insert_eq.
    + simpl. congruence.
    + unfold Server.job_inv. simpl. rewrite Hid', Hid, lookup_delete_eq.
      split; [congruence|]. split; [done|]. split; [exact Hc'|].
      split; [exact Hf'|]. split; [done|]. split; [|done].
      rewrite Hlen', Hi', Hres, length_fmap, <- Hperm, length_app. done.
Qed.

Lemma sys_init_inv : sys_inv sys_init.
Proof.
  split; simpl.
  - intros k j Hk. by rewrite lookup_empty in Hk.
  - intros k Hk. rewrite lookup_empty in Hk. by destruct Hk.
Qed.

Lemma sys_steps_inv (s s' : System) :
  sys_inv s → rtc sys_step s s' → sys_inv s'.
Proof.
  intros Hinv Hsteps. induction Hsteps as [|s1 s2 s3 Hstep _ IH]; [done|].
  apply IH. by apply (sys_step_inv s1).
Qed.

Lemma sys_reachable_inv (s : System) : sys_reachable analyze s → sys_inv s.
Proof. apply sys_steps_inv, sys_init_inv. Qed.

Lemma failing_outcomes (chart : string) (l : list string) :
  length (filter (fun o => has_error o = true) (run_item chart <$> l))
    = failing chart l.
Proof.
  unfold Server.failing. induction l as [|c l IH]; [done|].
  rewrite fmap_cons.
  destruct (has_error (run_item chart c)) eqn:He.
  - rewrite !filter_cons_True by done. simpl. by rewrite IH.
  - rewrite !filter_cons_False by (rewrite He; done). done.
Qed.

Lemma failing_perm (chart : string) (l l' : list string) :
  l ≡ₚ l' → failing chart l = failing chart l'.
Proof. unfold Server.failing. by intros ->. Qed.

Lemma job_inv_processed (s : System) (j : Job) :
  job_inv s j →
  processed j = length (results j) ∧
  processed j ≤ total j ∧
  (processed j = total j ↔ status j = completed ∨ status j = failed) ∧
  (status j = completed →
     processed j = total j ∧
     failed_count j = failing (chart_type j) (items j) ∧
     completed_count j = total j - failing (chart_type j) (items j) ∧
     results j ≡ₚ run_item (chart_type j) <$> items j).
Proof.
  intros (Htot & Hnw & Hc & Hf & Hwork).
  assert (Hlen : processed j = length (results j)).
  { unfold processed. rewrite Hc, Hf. apply split_by_error. }
  split; [done|].
  destruct (work s !! id j) as [remaining|].
  - destruct Hwork as (Hrun & Hne & done & Hres & Hperm).
    assert (Hlt : processed j < total j).
    { rewrite Hlen, Hres, length_fmap, Htot, <- Hperm, length_app.
      destruct remaining; [done | simpl; lia]. }
    split; [lia|]. split.
    + split; [lia|]. intros [H|H]; congruence.
    + intros H. congruence.
  - destruct Hwork as (Hterm & Hfull & Hcompleted).
    assert (Heq : processed j = total j) by congruence.
    split; [lia|]. split.
    + split; [|done]. intros _.
      destruct (status j); try discriminate Hterm; [by left | by right].
    + intros Hs. destruct (Hcompleted Hs) as (done & Hres & Hperm).
      assert (Hfail : failed_count j = failing (chart_type j) (items j)).
      { rewrite Hf, Hres, failing_outcomes. by apply failing_perm. }
      split; [done|]. split; [done|]. split.
      * unfold processed in Heq. lia.
      * rewrite Hres. by rewrite Hperm.
Qed.




Lemma code_of_run_item (chart code : string) :
  code_of (run_item chart code) = code.
Proof. unfold Server.run_item. by destruct (analyze code chart). Qed.

Lemma code_of_outcomes (chart : string) (l : list string) :
  code_of <$> (run_item chart <$> l) = l.
Proof.
  induction l as [|c l IH]; [done|].
  rewrite !fmap_cons, code_of_run_item. by rewrite IH.
Qed.

(** The job record after the outcomes of [its] have been recorded. *)
Lemma process_all_lookup (job_id : N) (chart : string) (its : list string)
    (st : gmap N Job) (j : Job) :
  st !! job_id = Some j →
  ∃ j', process_all job_id chart its st !! job_id = Some j' ∧
        status j' = status j ∧ items j' = items j ∧
        chart_type j' = chart_type j ∧ total j' = total j ∧
        error j' = error j ∧ id j' = id j ∧
        results j' = results j ++ (run_item chart <$> its) ∧
        failed_count j' = failed_count j + failing chart its ∧
        completed_count j' + failed_count j'
          = completed_count j + failed_count j + length its.
Proof.
  unfold Server.process_all.
  revert st j. induction its as [|c its IH]; intros st j Hj; simpl.
  - exists j. rewrite app_nil_r. repeat split; try done; unfold Server.failing;
      simpl; lia.
  - unfold exec at 2. simpl. unfold UpdateProgress. rewrite Hj.
    destruct (IH (<[job_id := record_outcome (run_item chart c) j]> st)
                 (record_outcome (run_item chart c) j))
      as (j' & Hj' & Hs & Hi & Hc & Ht & He & Hid & Hr & Hf & Hsum).
    { apply lookup_insert_eq. }
    exists j'. split; [exact Hj'|]. simpl in *.
    repeat split; try done.
    + by rewrite Hr, <- app_assoc.
    + rewrite Hf. unfold Server.failing.
      destruct (has_error (run_item chart c)) eqn:Herr.
      * rewrite (filter_cons_True _ c) by done. simpl. lia.
      * rewrite (filter_cons_False _ c) by (rewrite Herr; done). lia.
    + rewrite Hsum. destruct (has_error (run_item chart c)); lia.
Qed.

(** C6. A batch of N items of which K fail in analysis, run without
    job-level fault, ends completed with [failed_count = K] and
    [completed_count = N - K]; every item has exactly one outcome in
    [results], the one its own analysis gives: an error for a failing
    item, a payload for any other.  This holds for the run by one worker
    in submission order, which always ends, and for every completed job
    of any interleaving of workers and jobs. *)
Theorem failures_are_isolated (st : gmap N Job) (job_id : N)
    (its : list string) (chart : string) (now : N) :
  its ≠ [] → st !! job_id = None →
  (∃ st' j,
     run_batch job_id its chart now st = inr st' ∧
     Get job_id st' = inr j ∧
     status j = completed ∧ error j = None ∧
     total j = length its ∧
     failed_count j = failing chart its ∧
     completed_count j = length its - failing chart its ∧
     results j = run_item chart <$> its ∧
     (∀ c e, c ∈ its → analyze c chart = inr e →
        Failure c e ∈ results j) ∧
     (∀ c payload, c ∈ its → analyze c chart = inl payload →
        Success c payload ∈ results j)) ∧
  (∀ s k j,
     sys_reachable analyze s → Get k (store s) = inr j →
     status j = completed →
     failed_count j = failing (chart_type j) (items j) ∧
     completed_count j = length (items j) - failing (chart_type j) (items j) ∧
     results j ≡ₚ run_item (chart_type j) <$> items j ∧
     code_of <$> results j ≡ₚ items j).
Proof.
  intros Hne Hfree. split.
  - unfold Server.run_batch, Submit, Create.
    destruct its as [|c its]; [done|].
    change (id (new_job job_id (c :: its) chart now)) with job_id.
    rewrite Hfree. set (its0 := c :: its).
    destruct (process_all_lookup job_id chart its0
                (<[job_id := new_job job_id its0 chart now]> st)
                (new_job job_id its0 chart now))
      as (j' & Hj' & Hs & Hi & Hc & Ht & He & Hid & Hr & Hf & Hsum).
    { apply lookup_insert_eq. }
    assert (Hmem : ∀ c0, c0 ∈ its0 → run_item chart c0 ∈ results j').
    { intros c0 Hin. rewrite Hr. apply list_elem_of_fmap. by exists c0. }
    simpl in Hs, He, Ht, Hr, Hf, Hsum.
    unfold SetStatus. rewrite Hj', Hs. simpl.
    eexists. eexists. split; [reflexivity|].
    unfold Get. rewrite lookup_insert_eq. split; [reflexivity|]. simpl.
    split; [done|]. split; [done|]. split; [done|]. split; [done|].
    split; [lia|]. split; [done|]. split.
    + intros c0 e Hin Han. specialize (Hmem c0 Hin).
      unfold Server.run_item in Hmem. by rewrite Han in Hmem.
    + intros c0 payload Hin Han. specialize (Hmem c0 Hin).
      unfold Server.run_item in Hmem. by rewrite Han in Hmem.
  - intros s k j Hreach Hj%Get_inr Hs.
    destruct (sys_reachable_inv s Hreach) as [Hjobs _].
    destruct (Hjobs k j Hj) as [_ Hinv].
    pose proof Hinv as (Htot & _).
    destruct (job_inv_processed s j Hinv) as (_ & _ & _ & Hdone).
    destruct (Hdone Hs) as (_ & Hf & Hc & Hr).
    rewrite <- Htot. split; [done|]. split; [done|]. split; [done|].
    by rewrite Hr, code_of_outcomes.
Qed.

End RunnerProperties.

Section RunnerSamples.
Import Server.

Lemma sample_submitted_reachable : sys_reachable sample_analyze sample_submitted.
Proof.
  eapply rtc_l; [|apply rtc_refl].
  by apply (step_submit sample_analyze 1 ["005930"%string] "day" 0 sys_init).
Qed.

Lemma sample_completed_reachable : sys_reachable sample_analyze sample_completed.
Proof.
  eapply rtc_r; [apply sample_submitted_reachable|].
  by eapply (step_last_item sample_analyze 1 "005930" sample_job
               sample_submitted).
Qed.


(** A job-level fault before the item of job 1 is processed: the item
    is marked as not processed and counted, and the job is failed. *)
Example fault_marks_remaining :
  ∃ s' j,
    sys_step sample_analyze sample_submitted s' ∧
    Get 1 (store s') = inr j ∧
    status j = failed ∧ error j = Some "storage unavailable"%string ∧
    results j = [not_processed "005930"] ∧
    completed_count j = 0 ∧ failed_count j = 1 ∧ total j = 1.
Proof.
  eexists _, _. split.
  - eapply (step_fault sample_analyze 1 ["005930"%string]
              "storage unavailable" sample_submitted);
      vm_compute; reflexivity.
  - split; [vm_compute; reflexivity|]. by split_and!.
Qed.

Lemma failures_are_isolated_witness :
  ∃ st' j,
    run_batch sample_analyze 1 ["005930"; "000000"; "000660"]%string "day" 0 ∅
      = inr st' ∧
    Get 1 st' = inr j ∧
    status j = completed ∧ failed_count j = 1 ∧ completed_count j = 2.
Proof.
  destruct (failures_are_isolated sample_analyze ∅ 1
              ["005930"; "000000"; "000660"]%string "day" 0)
    as [(st' & j & Hrun & Hj & Hs & _ & _ & Hf & Hc & _) _].
  - discriminate.
  - apply lookup_empty.
  - exists st', j. repeat split; done.
Defined.

End RunnerSamples.

(** * Further properties of the scripts *)

(** ** single.js *)

Section SingleInput.
Import Js Single SinglePage.

Lemma strip_digits_id (s : jsstring) :
  Forall (fun c => is_digit c = true) s → strip_non_digits s = s.
Proof.
  unfold strip_non_digits. induction 1 as [|c s Hc _ IH]; [done|].
  rewrite filter_cons_True by done. by rewrite IH.
Qed.

(** X1. Whatever is typed, the input listener leaves in the field
    exactly the digits of the text, in their order and whatever their
    number; run again on what it left, it changes nothing. *)
Theorem on_input_leaves_digits (value : jsstring) :
  (on_input value).1 = strip_non_digits value ∧
  (on_input (on_input value).1).1 = (on_input value).1.
Proof.
  assert (Hfirst : ∀ v, (on_input v).1 = strip_non_digits v).
  { intros v. unfold on_input. simpl.
    destruct (truthy_str v) eqn:Ht; simpl.
    - destruct (test_digits_0_6 v) eqn:Hd; simpl; [|done].
      symmetry. apply strip_digits_id.
      unfold test_digits_0_6 in Hd. apply andb_true_iff in Hd as [Hd _].
      apply Forall_forall. intros c Hc. rewrite forallb_forall in Hd.
      apply Hd. by apply list_elem_of_In.
    - by destruct v. }
  split; [apply Hfirst|].
  rewrite (Hfirst (on_input value).1), (Hfirst value).
  apply strip_digits_id. apply Forall_forall.
  intros c Hc. by apply list_elem_of_filter in Hc as [Hc _].
Qed.

(** X2. With six characters in the trimmed field, a submission and its
    answer send one request, end with the loading state off, and leave
    exactly one panel visible: the result when the answer was parsed,
    [response.ok] held and it carried no error, the error otherwise.
    With any other length nothing is sent, the error is shown, and the
    result panel and the loading state stay as they were. *)
Theorem submit_round_shows_one_panel (p : Page) (o : Batch.Response SingleData)
    (now : jsstring) :
  let body := {| stock_code := trim (field p); chart_type := chartType p |} in
  (length (trim (field p)) = 6 →
     let p' := answer o now (submit p) in
     sent p' = sent p ++ [body] ∧
     loading p' = false ∧
     resultVisible p' = accepted o ∧
     errorVisible p' = negb (accepted o)) ∧
  (length (trim (field p)) ≠ 6 →
     sent (submit p) = sent p ∧
     loading (submit p) = loading p ∧
     resultVisible (submit p) = resultVisible p ∧
     resultView (submit p) = resultView p ∧
     errorVisible (submit p) = true ∧
     errorMessage (submit p) = msg_need_six_digits).
Proof.
  intros body. split; intros Hlen.
  - assert (Hsub : on_submit (field p) (chartType p) =
              [HideResult; HideError; SetLoading true; Fetch body]).
    { unfold on_submit. rewrite bool_decide_eq_true_2 by done.
      destruct (trim (field p)); [discriminate Hlen | reflexivity]. }
    unfold submit. rewrite Hsub. simpl.
    destruct o as [m|[|] data]; simpl; try done.
    by destruct (truthy_opt (sg_error data)).
  - assert (Hsub : on_submit (field p) (chartType p) =
              [ShowError msg_need_six_digits]).
    { unfold on_submit. rewrite bool_decide_eq_false_2 by done.
      by rewrite orb_true_r. }
    unfold submit. rewrite Hsub. done.
Qed.

(** X3. The colour and the description of the score always belong to
    the same band: 80 and more, 60 to below 80, below 60.  A missing
    score counts as 0. *)
Theorem score_bands_agree (data : SingleData) (now : jsstring) :
  let score := default 0%Q (sg_analysis_score data) in
  let v := showResult data now in
  ((80 <= score)%Q → v_background v = bg_green ∧ v_description v = desc_very_good) ∧
  ((60 <= score)%Q → (score < 80)%Q →
     v_background v = bg_yellow ∧ v_description v = desc_fair) ∧
  ((score < 60)%Q → v_background v = bg_red ∧ v_description v = desc_caution) ∧
  (sg_analysis_score data = None →
     v_background v = bg_red ∧ v_description v = desc_caution).
Proof.
  intros score v. subst v. unfold showResult. simpl.
  fold score. unfold score_background, score_description.
  assert (H80 : ∀ q, Qle_bool 80 q = true ↔ (80 <= q)%Q) by (intros; apply Qle_bool_iff).
  assert (H60 : ∀ q, Qle_bool 60 q = true ↔ (60 <= q)%Q) by (intros; apply Qle_bool_iff).
  repeat split.
  - by rewrite (proj2 (H80 score) H).
  - by rewrite (proj2 (H80 score) H).
  - destruct (Qle_bool 80 score) eqn:E; [apply H80 in E; by apply Qle_not_lt in E|].
    by rewrite (proj2 (H60 score) H).
  - destruct (Qle_bool 80 score) eqn:E; [apply H80 in E; by apply Qle_not_lt in E|].
    by rewrite (proj2 (H60 score) H).
  - destruct (Qle_bool 80 score) eqn:E.
    { apply H80 in E. exfalso. apply (Qle_not_lt _ _ E). eapply Qlt_trans; [exact H|]. reflexivity. }
    destruct (Qle_bool 60 score) eqn:E'; [apply H60 in E'; by apply Qle_not_lt in E'|done].
  - destruct (Qle_bool 80 score) eqn:E.
    { apply H80 in E. exfalso. apply (Qle_not_lt _ _ E). eapply Qlt_trans; [exact H|]. reflexivity. }
    destruct (Qle_bool 60 score) eqn:E'; [apply H60 in E'; by apply Qle_not_lt in E'|done].
  - subst score. by rewrite H.
  - subst score. by rewrite H.
Qed.

End SingleInput.

Section FormatText.
Import Js SinglePage.

Lemma replace_all_cons (d : N) (ds open close : jsstring) (c : N) (s' : jsstring) :
  replace_all d ds open close (c :: s') =
    match match_at d ds (c :: s') with
    | Some (inner, after) =>
        open ++ inner ++ close ++ replace_all d ds open close after
    | None => c :: replace_all d ds open close s'
    end.
Proof.
  simp replace_all. unfold inspect.
  assert (Hgen : ∀ o (H : match_at d ds (c :: s') = o),
    replace_all_unfold_clause_2 d ds open close c s' (exist _ o H) =
    match o with
    | Some (inner, after) =>
        open ++ inner ++ close ++ replace_all d ds open close after
    | None => c :: replace_all d ds open close s'
    end).
  { intros [[inner after]|] H; reflexivity. }
  apply Hgen.
Qed.

Lemma strip_prefix_head (d : N) (ds s : jsstring) :
  d ∉ s → strip_prefix (d :: ds) s = None.
Proof.
  destruct s as [|c s]; [done|]. simpl. intros Hnot.
  destruct (N.eqb_spec d c) as [->|Hne]; [|done].
  destruct Hnot. apply list_elem_of_here.
Qed.

Lemma replace_all_unmarked (d : N) (ds open close s : jsstring) :
  d ∉ s → replace_all d ds open close s = s.
Proof.
  induction s as [|c s IH]; intros Hnot; [by simp replace_all|].
  rewrite replace_all_cons. unfold match_at.
  rewrite strip_prefix_head by done.
  rewrite IH; [done|]. intros Hin. apply Hnot. by apply list_elem_of_further.
Qed.

Example formatText_both_markers :
  formatText (lit "a**b**c*d*") = lit "a<strong>b</strong>c<em>d</em>".
Proof. vm_compute. reflexivity. Qed.

(** An opening marker without its closing one is read by the second
    pass as an empty emphasis. *)
Example formatText_unclosed_marker : formatText (lit "**a") = lit "<em></em>a".
Proof. vm_compute. reflexivity. Qed.

Lemma strip_prefix_Some (prefix s rest : jsstring) :
  strip_prefix prefix s = Some rest ↔ s = prefix ++ rest.
Proof.
  revert s. induction prefix as [|p prefix IH]; intros s; simpl.
  - split; [by intros [= ->] | by intros ->].
  - destruct s as [|c s]; [split; intros; discriminate|].
    destruct (N.eqb_spec p c) as [->|Hne].
    + rewrite IH. split; [by intros -> | by intros [= ->]].
    + split; [discriminate | intros [= ? ?]; congruence].
Qed.

Lemma find_close_shape (delim s inner after : jsstring) :
  find_close delim s = Some (inner, after) → s = inner ++ delim ++ after.
Proof.
  revert inner. induction s as [|c s IH]; intros inner; simpl.
  - destruct (strip_prefix delim []) eqn:Hp; [|done].
    intros [= <- <-]. by apply strip_prefix_Some in Hp.
  - destruct (strip_prefix delim (c :: s)) eqn:Hp.
    + intros [= <- <-]. by apply strip_prefix_Some in Hp.
    + destruct (is_line_terminator c); [done|].
      destruct (find_close delim s) as [[i a]|]; [|done].
      intros [= <- <-]. by rewrite (IH i eq_refl).
Qed.

Lemma match_at_shape (d : N) (ds s inner after : jsstring) :
  match_at d ds s = Some (inner, after) →
  s = (d :: ds) ++ inner ++ (d :: ds) ++ after.
Proof.
  unfold match_at.
  destruct (strip_prefix (d :: ds) s) as [rest|] eqn:Hp; [|done].
  intros Hc. apply strip_prefix_Some in Hp. apply find_close_shape in Hc.
  by rewrite Hp, Hc.
Qed.

(** Every code unit of the result comes from the text or from a tag. *)
Lemma replace_all_elem (d : N) (ds open close s : jsstring) (x : N) :
  x ∈ replace_all d ds open close s → x ∈ s ∨ x ∈ open ∨ x ∈ close.
Proof.
  remember (length s) as n eqn:Hn. revert s Hn.
  induction n as [n IH] using lt_wf_ind. intros s Hn.
  destruct s as [|c s']; [simp replace_all; by left|].
  rewrite replace_all_cons.
  destruct (match_at d ds (c :: s')) as [[inner after]|] eqn:Hm.
  - pose proof (match_at_shape _ _ _ _ _ Hm) as Hs.
    assert (Hlen : length after < n).
    { rewrite Hn, Hs, !length_app. simpl. lia. }
    rewrite Hs. intros Hx.
    apply elem_of_app in Hx as [Hx|Hx]; [by right; left|].
    apply elem_of_app in Hx as [Hx|Hx].
    { left. rewrite !elem_of_app. by right; left. }
    apply elem_of_app in Hx as [Hx|Hx]; [by right; right|].
    destruct (IH _ Hlen after eq_refl Hx) as [H|H]; [|by right].
    left. rewrite !elem_of_app. by right; right; right.
  - intros [->|Hx]%elem_of_cons; [left; apply list_elem_of_here|].
    assert (Hlen : length s' < n) by (rewrite Hn; simpl; lia).
    destruct (IH _ Hlen s' eq_refl Hx) as [H|H]; [|by right].
    left. by apply list_elem_of_further.
Qed.

Lemma replace_newlines_elem (text : jsstring) (x : N) :
  x ∈ replace_newlines text → (x ∈ text ∧ x ≠ 10%N) ∨ x ∈ lit "<br>".
Proof.
  unfold replace_newlines. rewrite list_elem_of_bind.
  intros (c & Hx & Hc). destruct (N.eqb_spec c 10) as [Heq|Hne].
  - by right.
  - apply list_elem_of_singleton in Hx. subst x. by left.
Qed.

Lemma replace_newlines_app (s t : jsstring) :
  replace_newlines (s ++ t) = replace_newlines s ++ replace_newlines t.
Proof. unfold replace_newlines. apply bind_app. Qed.

Lemma replace_newlines_id (s : jsstring) :
  10%N ∉ s → replace_newlines s = s.
Proof.
  induction s as [|c s IH]; intros Hnot; [done|].
  unfold replace_newlines in *. simpl.
  destruct (N.eqb_spec c 10) as [->|Hne].
  - destruct Hnot. apply list_elem_of_here.
  - simpl. f_equal. apply IH. intros Hin. apply Hnot.
    by apply list_elem_of_further.
Qed.

Lemma tags_plain (x : N) :
  x = 10%N ∨ x = star →
  (x ∉ lit "<br>") ∧ (x ∉ lit "<strong>") ∧ (x ∉ lit "</strong>") ∧
  (x ∉ lit "<em>") ∧ (x ∉ lit "</em>").
Proof.
  intros [->| ->]; repeat split;
    apply (bool_decide_unpack _); vm_compute; exact I.
Qed.

(** X4. The text [formatText] returns holds no line feed. *)
Theorem formatText_no_line_feed (text : jsstring) : 10%N ∉ formatText text.
Proof.
  destruct (tags_plain 10 (or_introl eq_refl)) as (Hbr & Hs & Hs' & He & He').
  unfold formatText. destruct (truthy_str text); simpl; [|apply not_elem_of_nil].
  intros H3.
  apply replace_all_elem in H3 as [H2|[H|H]]; [|done..].
  apply replace_all_elem in H2 as [H1|[H|H]]; [|done..].
  by apply replace_newlines_elem in H1 as [[_ Hne]|H].
Qed.

Lemma replace_newlines_unmarked (text : jsstring) :
  star ∉ text → star ∉ replace_newlines text.
Proof.
  intros Hnot [[H _]|H]%replace_newlines_elem; [done|].
  by destruct (tags_plain star (or_intror eq_refl)) as (Hbr & _).
Qed.

(** X5. On a text without asterisk [formatText] only replaces the
    line feeds by [<br>]; without line feed either, the text comes back
    as it is, markup included. *)
Theorem formatText_plain (text : jsstring) :
  star ∉ text →
  formatText text = replace_newlines text ∧
  (10%N ∉ text → formatText text = text).
Proof.
  intros Hnot.
  assert (Hfmt : formatText text = replace_newlines text).
  { unfold formatText. destruct text as [|c text]; [done|]. simpl negb.
    cbv iota. cbv zeta.
    rewrite (replace_all_unmarked star [star]);
      [|by apply replace_newlines_unmarked].
    apply replace_all_unmarked. by apply replace_newlines_unmarked. }
  split; [done|]. intros Hlf. rewrite Hfmt. by apply replace_newlines_id.
Qed.

Lemma formatText_plain_witness :
  formatText (lit "<b>5%</b>") = lit "<b>5%</b>".
Proof.
  apply (formatText_plain (lit "<b>5%</b>")).
  - apply (bool_decide_unpack _). vm_compute. exact I.
  - apply (bool_decide_unpack _). vm_compute. exact I.
Defined.

Lemma strip_prefix_cons_ne (d : N) (ds : jsstring) (c : N) (s : jsstring) :
  c ≠ d → strip_prefix (d :: ds) (c :: s) = None.
Proof. intros Hne. simpl. by destruct (N.eqb_spec d c). Qed.

Lemma find_close_none (d : N) (ds s : jsstring) :
  d ∉ s → find_close (d :: ds) s = None.
Proof.
  induction s as [|c s IH]; intros Hnot.
  - reflexivity.
  - apply not_elem_of_cons in Hnot as [Hne Hnot].
    cbn [find_close]. rewrite strip_prefix_cons_ne by done.
    destruct (is_line_terminator c); [done|]. by rewrite IH.
Qed.

Lemma find_close_found (d : N) (ds inner after : jsstring) :
  d ∉ inner → Forall (fun c => is_line_terminator c = false) inner →
  find_close (d :: ds) (inner ++ (d :: ds) ++ after) = Some (inner, after).
Proof.
  induction inner as [|c inner IH]; intros Hnot Hlt.
  - assert (Hp : strip_prefix (d :: ds) (d :: (ds ++ after)) = Some after)
      by (by apply strip_prefix_Some).
    change ([] ++ (d :: ds) ++ after) with (d :: (ds ++ after)).
    cbn [find_close]. by rewrite Hp.
  - apply Forall_cons in Hlt as [Hc Hlt].
    apply not_elem_of_cons in Hnot as [Hne Hnot].
    change ((c :: inner) ++ (d :: ds) ++ after)
      with (c :: (inner ++ (d :: ds) ++ after)).
    cbn [find_close]. rewrite strip_prefix_cons_ne by done.
    by rewrite Hc, IH.
Qed.

Lemma replace_all_skip (d : N) (ds open close pre s : jsstring) :
  d ∉ pre →
  replace_all d ds open close (pre ++ s) = pre ++ replace_all d ds open close s.
Proof.
  induction pre as [|c pre IH]; intros Hnot; [done|].
  apply not_elem_of_cons in Hnot as [Hne Hnot].
  change ((c :: pre) ++ s) with (c :: (pre ++ s)).
  rewrite replace_all_cons. unfold match_at.
  rewrite strip_prefix_cons_ne by done. by rewrite IH.
Qed.

Lemma replace_all_segment (d : N) (ds open close pre inner post : jsstring) :
  d ∉ pre → d ∉ inner →
  Forall (fun c => is_line_terminator c = false) inner →
  replace_all d ds open close (pre ++ (d :: ds) ++ inner ++ (d :: ds) ++ post)
  = pre ++ open ++ inner ++ close ++ replace_all d ds open close post.
Proof.
  intros Hpre Hinner Hlt. rewrite replace_all_skip by done. f_equal.
  change ((d :: ds) ++ inner ++ (d :: ds) ++ post)
    with (d :: (ds ++ inner ++ (d :: ds) ++ post)).
  rewrite replace_all_cons. unfold match_at.
  assert (Hp : strip_prefix (d :: ds) (d :: (ds ++ inner ++ (d :: ds) ++ post))
               = Some (inner ++ (d :: ds) ++ post))
    by (by apply strip_prefix_Some).
  rewrite Hp. by rewrite find_close_found.
Qed.

(** A pair of single asterisks is left alone by the pass for double
    asterisks. *)
Lemma replace_all_strong_single (pre inner post : jsstring) :
  star ∉ pre → star ∉ inner → star ∉ post →
  replace_all star [star] (lit "<strong>") (lit "</strong>")
    (pre ++ [star] ++ inner ++ [star] ++ post)
  = pre ++ [star] ++ inner ++ [star] ++ post.
Proof.
  intros Hpre Hinner Hpost. rewrite replace_all_skip by done. f_equal.
  assert (Htail : replace_all star [star] (lit "<strong>") (lit "</strong>")
            ([star] ++ post) = [star] ++ post).
  { change ([star] ++ post) with (star :: post).
    rewrite replace_all_cons. unfold match_at.
    destruct post as [|c post].
    - assert (Hp : strip_prefix [star; star] [star] = None) by reflexivity.
      rewrite Hp. by rewrite replace_all_equation_1.
    - apply not_elem_of_cons in Hpost as [Hne Hpost].
      assert (Hp : strip_prefix [star; star] (star :: c :: post) = None).
      { change (strip_prefix [star; star] (star :: c :: post))
          with (strip_prefix [star] (c :: post)).
        apply strip_prefix_cons_ne. congruence. }
      rewrite Hp. f_equal. apply replace_all_unmarked.
      by apply not_elem_of_cons. }
  change ([star] ++ inner ++ [star] ++ post)
    with (star :: (inner ++ [star] ++ post)).
  rewrite replace_all_cons. unfold match_at.
  destruct inner as [|c inner].
  - change (strip_prefix [star; star] (star :: [] ++ [star] ++ post))
      with (strip_prefix [star] ([star] ++ post)).
    rewrite (proj2 (strip_prefix_Some [star] ([star] ++ post) post) eq_refl).
    rewrite find_close_none by done. f_equal. exact Htail.
  - apply not_elem_of_cons in Hinner as [Hne Hinner].
    assert (Hp : strip_prefix [star; star]
              (star :: (c :: inner) ++ [star] ++ post) = None).
    { change (strip_prefix [star; star]
                (star :: (c :: inner) ++ [star] ++ post))
        with (strip_prefix [star] (c :: (inner ++ [star] ++ post))).
      apply strip_prefix_cons_ne. congruence. }
    rewrite Hp. f_equal.
    rewrite (replace_all_skip star [star] _ _ (c :: inner));
      [|by apply not_elem_of_cons].
    f_equal. exact Htail.
Qed.

Lemma formatText_nonempty (text : jsstring) :
  text ≠ [] →
  formatText text =
    replace_all star [] (lit "<em>") (lit "</em>")
      (replace_all star [star] (lit "<strong>") (lit "</strong>")
         (replace_newlines text)).
Proof. by destruct text. Qed.

Lemma no_star_in_tags :
  (star ∉ lit "<strong>") ∧ (star ∉ lit "</strong>").
Proof. by destruct (tags_plain star (or_intror eq_refl)) as (_ & ? & ? & _). Qed.

(** X6. One stretch between double asterisks becomes [<strong>], one
    between single asterisks becomes [<em>], when the text holds no
    other asterisk and the stretch no carriage return, line separator
    or paragraph separator; line feeds, in the stretch too, become
    [<br>]. *)
Theorem formatText_emphasis (pre inner post : jsstring) :
  star ∉ pre → star ∉ inner → star ∉ post →
  Forall (fun c => c ≠ 13%N ∧ c ≠ 8232%N ∧ c ≠ 8233%N) inner →
  formatText (pre ++ [star; star] ++ inner ++ [star; star] ++ post)
    = replace_newlines pre ++ lit "<strong>" ++ replace_newlines inner
        ++ lit "</strong>" ++ replace_newlines post ∧
  formatText (pre ++ [star] ++ inner ++ [star] ++ post)
    = replace_newlines pre ++ lit "<em>" ++ replace_newlines inner
        ++ lit "</em>" ++ replace_newlines post.
Proof.
  intros Hpre Hinner Hpost Hlt.
  pose proof (replace_newlines_unmarked pre Hpre) as Hpre'.
  pose proof (replace_newlines_unmarked inner Hinner) as Hinner'.
  pose proof (replace_newlines_unmarked post Hpost) as Hpost'.
  destruct no_star_in_tags as [Hopen Hclose].
  assert (Hlt' : Forall (fun c => is_line_terminator c = false)
                   (replace_newlines inner)).
  { apply Forall_forall. intros x [[Hx Hne]|Hx]%replace_newlines_elem.
    - rewrite Forall_forall in Hlt. destruct (Hlt x Hx) as (H1 & H2 & H3).
      unfold is_line_terminator.
      by rewrite !(proj2 (N.eqb_neq _ _)).
    - vm_compute in Hx.
      repeat (apply elem_of_cons in Hx as [->|Hx]; [reflexivity|]).
      by apply not_elem_of_nil in Hx. }
  assert (Hstars : replace_newlines [star; star] = [star; star]) by reflexivity.
  assert (Hstar1 : replace_newlines [star] = [star]) by reflexivity.
  split.
  - rewrite formatText_nonempty by (by destruct pre).
    rewrite !replace_newlines_app, Hstars.
    rewrite (replace_all_segment star [star]) by done.
    rewrite (replace_all_unmarked star [star] _ _ (replace_newlines post))
      by done.
    apply replace_all_unmarked.
    rewrite !not_elem_of_app. done.
  - rewrite formatText_nonempty by (by destruct pre).
    rewrite !replace_newlines_app, Hstar1.
    rewrite replace_all_strong_single by done.
    rewrite (replace_all_segment star []) by done.
    by rewrite (replace_all_unmarked star [] _ _ (replace_newlines post)).
Qed.

Lemma formatText_emphasis_witness :
  formatText (lit "buy **now** ok") = lit "buy <strong>now</strong> ok".
Proof.
  destruct (formatText_emphasis (lit "buy ") (lit "now") (lit " ok"))
    as [Hstrong _].
  - apply (bool_decide_unpack _). vm_compute. exact I.
  - apply (bool_decide_unpack _). vm_compute. exact I.
  - apply (bool_decide_unpack _). vm_compute. exact I.
  - repeat constructor; discriminate.
  - exact Hstrong.
Defined.

End FormatText.

(** ** batch.js *)

Section BatchSubmission.
Import Js Batch BatchViews.

Lemma submit_answer_step (p : Page) (r : nat) (f : option File)
    (o : Response SubmitData) :
  reachable p →
  find_request r (pending p) = Some (ReqSubmit f) →
  ∃ p', step p (EvAnswer r (AnsSubmit o)) = Some p' ∧
        loading p' = false ∧ sent p' = sent p ∧
        (starts_polling o = true →
           batchId p' = answered_id o ∧ statusVisible p' = true ∧
           timers p' = {[next_timer p]} ∧
           statusInterval p' = Some (next_timer p) ∧
           errorVisible p' = errorVisible p ∧ console p' = console p) ∧
        (starts_polling o = false →
           batchId p' = batchId p ∧ timers p' = timers p ∧
           statusInterval p' = statusInterval p ∧
           statusVisible p' = statusVisible p ∧
           errorVisible p' = true ∧ errorMessage p' = failure_message o ∧
           console p' = console p ++ [LogBatchError (failure_message o)]).
Proof.
  intros Hreach Hfind.
  pose proof (reachable_inv p Hreach) as Hinv.
  set (q := set_pending (drop_request r (pending p)) p).
  assert (Hq : page_inv q) by (by apply drop_request_inv).
  exists (on_submit_resume o q).
  split; [unfold step; by rewrite Hfind|].
  unfold on_submit_resume.
  destruct o as [m|[|] data]; simpl; try done.
  destruct (truthy_opt (sd_error data)) eqn:Herr; simpl; [done|].
  set (q1 := showBatchStatus (set_batchId (sd_batch_id data) q)).
  assert (Hq1 : page_inv q1) by (by apply (inv_frame q)).
  destruct (startStatusCheck_fields q1 Hq1) as (Ht & Hs & _ & _ & _ & Hsent & Hb).
  split; [done|]. split; [exact Hsent|].
  split; [|done]. intros _.
  split; [exact Hb|].
  assert (Hrest : statusVisible (startStatusCheck q1) = true ∧
                  errorVisible (startStatusCheck q1) = errorVisible p ∧
                  console (startStatusCheck q1) = console p).
  { unfold startStatusCheck, clearInterval.
    destruct (truthy_timer (statusInterval q1)); [|done].
    by destruct (statusInterval q1). }
  destruct Hrest as (Hv & He & Hc).
  repeat split; done.
Qed.

(** X7. The answer to a batch submission always ends the loading
    state and sends nothing.  When it was parsed, [response.ok] held
    and it carried no error, [batchId] is the id it carries, the status
    section is shown and exactly one timer is scheduled, the one
    [statusInterval] names.  Otherwise [batchId], the timers and the
    status section stay as they were, and the error is shown and
    logged. *)
Theorem submit_answer_outcome (p : Page) (r : nat) (f : option File)
    (o : Response SubmitData) :
  reachable p →
  find_request r (pending p) = Some (ReqSubmit f) →
  ∃ p', step p (EvAnswer r (AnsSubmit o)) = Some p' ∧
        loading p' = false ∧ sent p' = sent p ∧
        (starts_polling o = true →
           batchId p' = answered_id o ∧ statusVisible p' = true ∧
           timers p' = {[next_timer p]} ∧
           statusInterval p' = Some (next_timer p) ∧
           errorVisible p' = errorVisible p ∧ console p' = console p) ∧
        (starts_polling o = false →
           batchId p' = batchId p ∧ timers p' = timers p ∧
           statusInterval p' = statusInterval p ∧
           statusVisible p' = statusVisible p ∧
           errorVisible p' = true ∧ errorMessage p' = failure_message o ∧
           console p' = console p ++ [LogBatchError (failure_message o)]).
Proof. apply submit_answer_step. Qed.

Lemma submit_answer_outcome_witness :
  ∃ p', step (default init (run init [EvSubmit])) (submit_ok 0 "b1")
          = Some p' ∧
        loading p' = false ∧ batchId p' = Some (lit "b1") ∧
        timers p' = {[1]}.
Proof.
  assert (Hreach : reachable (default init (run init [EvSubmit])))
    by (exists [EvSubmit]; vm_compute; reflexivity).
  destruct (submit_answer_outcome (default init (run init [EvSubmit])) 0 None
              (Parsed true {| sd_error := None; sd_batch_id := Some (lit "b1") |})
              Hreach)
    as (p' & Hstep & Hl & _ & Hyes & _).
  - vm_compute. reflexivity.
  - destruct (Hyes eq_refl) as (Hb & _ & Ht & _).
    exists p'. repeat split; done.
Defined.

Lemma idle_ticks (p : Page) (t : nat) (n : nat) :
  t ∈ timers p → truthy_id (batchId p) = false →
  run p (replicate n (EvTick t)) = Some p.
Proof.
  intros Ht Hid. induction n as [|n IH]; [done|].
  simpl. rewrite bool_decide_eq_true_2 by done.
  unfold checkBatchStatus. rewrite Hid. simpl. exact IH.
Qed.

(** X8. When an accepted submission answer carries no job id, or an
    empty one, the timer is scheduled all the same, no error is shown,
    and its ticks, however many, change nothing and send nothing. *)
Theorem missing_batch_id_polls_nothing (p : Page) (r : nat) (f : option File)
    (data : SubmitData) (n : nat) :
  reachable p →
  find_request r (pending p) = Some (ReqSubmit f) →
  truthy_opt (sd_error data) = false →
  truthy_opt (sd_batch_id data) = false →
  ∃ p', step p (EvAnswer r (AnsSubmit (Parsed true data))) = Some p' ∧
        timers p' = {[next_timer p]} ∧
        errorVisible p' = errorVisible p ∧
        run p' (replicate n (EvTick (next_timer p))) = Some p'.
Proof.
  intros Hreach Hfind Herr Hid.
  destruct (submit_answer_step p r f (Parsed true data) Hreach Hfind)
    as (p' & Hstep & _ & _ & Hyes & _).
  destruct Hyes as (Hb & _ & Ht & _ & He & _); [simpl; by rewrite Herr|].
  exists p'. split; [done|]. split; [done|]. split; [done|].
  apply idle_ticks; [rewrite Ht; by apply elem_of_singleton|].
  rewrite Hb. exact Hid.
Qed.

Lemma missing_batch_id_polls_nothing_witness :
  ∃ p', step submitting_page
          (EvAnswer 0 (AnsSubmit
             (Parsed true {| sd_error := None; sd_batch_id := None |})))
          = Some p' ∧
        timers p' = {[1]} ∧
        run p' (replicate 5 (EvTick 1)) = Some p'.
Proof.
  assert (Hreach : reachable submitting_page)
    by (exists [EvSubmit]; vm_compute; reflexivity).
  destruct (missing_batch_id_polls_nothing submitting_page 0 None
              {| sd_error := None; sd_batch_id := None |} 5 Hreach)
    as (p' & Hstep & Ht & _ & Hrun).
  - vm_compute. reflexivity.
  - reflexivity.
  - reflexivity.
  - exists p'. exact (conj Hstep (conj Ht Hrun)).
Defined.

Lemma step_requests (p p' : Page) (e : Event) :
  step p e = Some p' →
  ∃ new, sent p' = sent p ++ new ∧ ∀ rq, rq ∈ new → names_job p rq.
Proof.
  intros Hstep.
  assert (Hnil : ∀ l : list Request, l = sent p →
            ∃ new, l = sent p ++ new ∧ ∀ rq, rq ∈ new → names_job p rq).
  { intros l Hl. exists []. split; [by rewrite app_nil_r|].
    intros rq Hrq. by apply not_elem_of_nil in Hrq. }
  assert (Hone : ∀ (l : list Request) rq, l = sent p ++ [rq] →
            names_job p rq →
            ∃ new, l = sent p ++ new ∧ ∀ rq, rq ∈ new → names_job p rq).
  { intros l rq Hl Hrq. exists [rq]. split; [done|].
    by intros rq' ->%list_elem_of_singleton. }
  destruct e as [f|content| |t|r a| |]; simpl in Hstep.
  - injection Hstep as Heq; subst p'. apply Hnil.
    unfold on_file_change.
    destruct f as [file|]; [|done]. by repeat case_match.
  - destruct (readers p); [discriminate|].
    injection Hstep as Heq; subst p'. by apply Hnil.
  - injection Hstep as Heq; subst p'.
    by apply (Hone _ (ReqSubmit (fileInput p))).
  - case_bool_decide as Ht; [|discriminate].
    injection Hstep as Heq; subst p'. unfold checkBatchStatus.
    destruct (batchId p) as [b|] eqn:Hb; simpl; [|by apply Hnil].
    destruct (truthy_str b); simpl; [|by apply Hnil].
    by apply (Hone _ (ReqStatus b)).
  - destruct (find_request r (pending p)) as [rq|]; [|discriminate].
    set (q := set_pending (drop_request r (pending p)) p) in *.
    destruct rq, a; simpl in Hstep; try discriminate;
      injection Hstep as Heq; subst p'.
    + apply Hnil. unfold on_submit_resume.
      destruct o as [m|ok data]; [done|].
      destruct ok; simpl; [|done].
      destruct (truthy_opt (sd_error data)); [done|].
      exact (proj1 (startStatusCheck_frame
                      (showBatchStatus (set_batchId (sd_batch_id data) q)))).
    + unfold checkBatchStatus_resume.
      destruct o as [m|ok status]; [by apply Hnil|].
      destruct (truthy_opt (st_error status)).
      { apply Hnil. apply (clearInterval_frame (statusInterval q) q). }
      repeat case_bool_decide.
      * apply (Hone _ (ReqResults (batchId p))); [|done].
        unfold showBatchResults, fetch. simpl. f_equal; [|f_equal].
        -- apply (clearInterval_frame (statusInterval q)
                    (updateStatusDisplay status q)).
        -- f_equal. apply (clearInterval_frame (statusInterval q)
                    (updateStatusDisplay status q)).
      * apply Hnil. apply (clearInterval_frame (statusInterval q)
                             (updateStatusDisplay status q)).
      * by apply Hnil.
    + apply Hnil. unfold showBatchResults_resume.
      destruct o as [m|ok data]; [done|]. by case_match.
  - injection Hstep as Heq; subst p'. apply Hnil.
    unfold on_reset, clearInterval. simpl. by repeat case_match.
  - injection Hstep as Heq; subst p'. apply Hnil.
    unfold on_beforeunload, clearInterval. by repeat case_match.
Qed.

Lemma step_batchId (p p' : Page) (e : Event) (b : jsstring) :
  step p e = Some p' → batchId p' = Some b →
  batchId p = Some b ∨ b ∈ handed_out [e].
Proof.
  intros Hstep Hb.
  destruct e as [f|content| |t|r a| |]; simpl in Hstep.
  - injection Hstep as Heq; subst p'. left. rewrite <- Hb.
    unfold on_file_change. destruct f; [|done]. by repeat case_match.
  - destruct (readers p); [discriminate|].
    injection Hstep as Heq; subst p'. by left.
  - injection Hstep as Heq; subst p'. by left.
  - case_bool_decide; [|discriminate].
    injection Hstep as Heq; subst p'. left. rewrite <- Hb.
    unfold checkBatchStatus. by case_match.
  - destruct (find_request r (pending p)) as [rq|]; [|discriminate].
    set (q := set_pending (drop_request r (pending p)) p) in *.
    destruct rq, a; simpl in Hstep; try discriminate;
      injection Hstep as Heq; subst p'.
    + unfold on_submit_resume in Hb.
      destruct o as [m|ok data]; [by left|].
      destruct ok; simpl in *; [|by left].
      destruct (truthy_opt (sd_error data)) eqn:Herr; [by left|].
      right.
      assert (Hid : sd_batch_id data = Some b).
      { rewrite <- Hb. symmetry.
        exact (proj1 (proj2 (startStatusCheck_frame
                 (showBatchStatus (set_batchId (sd_batch_id data) q))))). }
      rewrite Hid. apply list_elem_of_here.
    + left. rewrite <- Hb. unfold checkBatchStatus_resume.
      destruct o as [m|ok status]; [done|].
      destruct (truthy_opt (st_error status)).
      { symmetry. apply (clearInterval_frame (statusInterval q) q). }
      repeat case_bool_decide; [| |done]; symmetry;
        apply (clearInterval_frame (statusInterval q)
                 (updateStatusDisplay status q)).
    + left. rewrite <- Hb. unfold showBatchResults_resume.
      destruct o as [m|ok data]; [done|]. by case_match.
  - injection Hstep as Heq; subst p'. discriminate Hb.
  - injection Hstep as Heq; subst p'. left. rewrite <- Hb.
    unfold on_beforeunload, clearInterval. by repeat case_match.
Qed.

Lemma run_requests (evs : list Event) (p p' : Page) (ids : list jsstring) :
  (∀ b, batchId p = Some b → b ∈ ids) →
  run p evs = Some p' →
  ∃ new, sent p' = sent p ++ new ∧
         ∀ rq, rq ∈ new → handed (ids ++ handed_out evs) rq.
Proof.
  revert p ids. induction evs as [|e evs IH]; intros p ids Hp Hrun;
    simpl in Hrun.
  - injection Hrun as <-. exists []. split; [by rewrite app_nil_r|].
    intros rq Hrq. by apply not_elem_of_nil in Hrq.
  - destruct (step p e) as [q|] eqn:Hstep; [|discriminate].
    destruct (step_requests p q e Hstep) as (new1 & Hs1 & Hnew1).
    destruct (IH q (ids ++ handed_out [e])) as (new2 & Hs2 & Hnew2);
      [|exact Hrun|].
    { intros b Hb. apply elem_of_app.
      destruct (step_batchId p q e b Hstep Hb) as [H|H]; [left; by apply Hp|by right]. }
    exists (new1 ++ new2). split; [by rewrite Hs2, Hs1, app_assoc|].
    intros rq [Hrq|Hrq]%elem_of_app.
    + specialize (Hnew1 rq Hrq).
      destruct rq as [f|b|[b|]]; simpl in *; try done.
      * apply elem_of_app. left. by apply Hp.
      * apply elem_of_app. left. by apply Hp.
    + rewrite handed_out_cons, app_assoc. by apply Hnew2.
Qed.

(** X9. Every job whose status or results the page has asked for was
    handed out by the answer to one of its submissions. *)
Theorem only_handed_out_jobs_requested (evs : list Event) (p : Page) :
  run init evs = Some p →
  ∀ b, (ReqStatus b ∈ sent p ∨ ReqResults (Some b) ∈ sent p) →
       b ∈ handed_out evs.
Proof.
  intros Hrun b Hb.
  destruct (run_requests evs init p []) as (new & Hs & Hnew); [done|done|].
  simpl in Hs. rewrite <- Hs in Hnew.
  destruct Hb as [Hb|Hb]; exact (Hnew _ Hb).
Qed.

Lemma only_handed_out_jobs_requested_witness :
  lit "b1" ∈ handed_out polling_run.
Proof.
  apply (only_handed_out_jobs_requested polling_run polling_page).
  - vm_compute. reflexivity.
  - left. apply (bool_decide_unpack _). vm_compute. exact I.
Defined.

Lemma clearInterval_results (t : option nat) (p : Page) :
  resultsVisible (clearInterval t p) = resultsVisible p ∧
  downloadBound (clearInterval t p) = downloadBound p.
Proof. by destruct t. Qed.

Lemma startStatusCheck_results (p : Page) :
  resultsVisible (startStatusCheck p) = resultsVisible p ∧
  downloadBound (startStatusCheck p) = downloadBound p.
Proof.
  unfold startStatusCheck, clearInterval.
  destruct (truthy_timer (statusInterval p)); [|done].
  by destruct (statusInterval p).
Qed.

Lemma step_results (p p' : Page) (e : Event) :
  step p e = Some p' →
  (resultsVisible p = true → resultsVisible p' = true) ∧
  (downloadBound p = true → downloadBound p' = true).
Proof.
  intros Hstep.
  assert (Hsame : ∀ q, resultsVisible q = resultsVisible p ∧
                       downloadBound q = downloadBound p →
            (resultsVisible p = true → resultsVisible q = true) ∧
            (downloadBound p = true → downloadBound q = true)).
  { intros q [-> ->]. done. }
  destruct e as [f|content| |t|r a| |]; simpl in Hstep.
  - injection Hstep as Heq; subst p'. apply Hsame.
    unfold on_file_change. destruct f; [|done]. by repeat case_match.
  - destruct (readers p); [discriminate|].
    injection Hstep as Heq; subst p'. by apply Hsame.
  - injection Hstep as Heq; subst p'. by apply Hsame.
  - case_bool_decide; [|discriminate].
    injection Hstep as Heq; subst p'. apply Hsame.
    unfold checkBatchStatus. by case_match.
  - destruct (find_request r (pending p)) as [rq|]; [|discriminate].
    set (q := set_pending (drop_request r (pending p)) p) in *.
    destruct rq, a; simpl in Hstep; try discriminate;
      injection Hstep as Heq; subst p'.
    + apply Hsame. unfold on_submit_resume.
      destruct o as [m|ok data]; [done|].
      destruct ok; simpl; [|done].
      destruct (truthy_opt (sd_error data)); [done|].
      apply (startStatusCheck_results
               (showBatchStatus (set_batchId (sd_batch_id data) q))).
    + apply Hsame. unfold checkBatchStatus_resume.
      destruct o as [m|ok status]; [done|].
      destruct (truthy_opt (st_error status)).
      { apply (clearInterval_results (statusInterval q) q). }
      repeat case_bool_decide; [| |done];
        apply (clearInterval_results (statusInterval q)
                 (updateStatusDisplay status q)).
    + unfold showBatchResults_resume.
      destruct o as [m|ok data]; [by apply Hsame|].
      destruct (truthy_opt (rd_error data)); [by apply Hsame | done].
  - injection Hstep as Heq; subst p'. apply Hsame.
    unfold on_reset, clearInterval. simpl. by repeat case_match.
  - injection Hstep as Heq; subst p'. apply Hsame.
    unfold on_beforeunload, clearInterval. by repeat case_match.
Qed.

(** X10. No handler sets the results section back to hidden or unbinds
    the download button, the reset of the form included; and after a
    reset the download button leads to the download of job [null]. *)
Theorem results_section_never_hidden (p p' : Page) (evs : list Event) :
  run p evs = Some p' →
  (resultsVisible p = true → resultsVisible p' = true) ∧
  (downloadBound p = true →
     downloadBound p' = true ∧
     ∃ p'', step p' EvReset = Some p'' ∧
            resultsVisible p'' = resultsVisible p' ∧
            on_download_click p'' = Some None).
Proof.
  intros Hrun.
  assert (Hkeep : (resultsVisible p = true → resultsVisible p' = true) ∧
                  (downloadBound p = true → downloadBound p' = true)).
  { revert p Hrun. induction evs as [|e evs IH]; intros p Hrun;
      simpl in Hrun.
    - by injection Hrun as <-.
    - destruct (step p e) as [q|] eqn:Hstep; [|discriminate].
      destruct (step_results p q e Hstep) as [H1 H2].
      destruct (IH q Hrun) as [H3 H4]. split; auto. }
  destruct Hkeep as [Hvis Hdl]. split; [done|].
  intros Hbound. specialize (Hdl Hbound). split; [done|].
  eexists. split; [reflexivity|].
  assert (Hreset : resultsVisible (on_reset p') = resultsVisible p' ∧
                   downloadBound (on_reset p') = downloadBound p' ∧
                   batchId (on_reset p') = None).
  { unfold on_reset, clearInterval. simpl.
    destruct (truthy_timer (statusInterval p')); [|done].
    by destruct (statusInterval p'). }
  destruct Hreset as (Hv & Hd & Hb). split; [exact Hv|].
  unfold on_download_click.
  change (downloadBound (set_fileInput None (on_reset p')))
    with (downloadBound (on_reset p')).
  change (batchId (set_fileInput None (on_reset p')))
    with (batchId (on_reset p')).
  by rewrite Hd, Hdl, Hb.
Qed.

Lemma results_section_never_hidden_witness :
  ∃ q, step shown_results_page EvReset = Some q ∧
       on_download_click q = Some None.
Proof.
  destruct (results_section_never_hidden shown_results_page
              shown_results_page []) as [_ Hdl]; [reflexivity|].
  destruct Hdl as (_ & q & Hstep & _ & Hclick).
  - vm_compute. reflexivity.
  - exists q. exact (conj Hstep Hclick).
Defined.

(** X11. A reset of the form does not cancel a submission under way:
    when its answer comes after the reset, [batchId] is set, the status
    section is shown again and a timer is scheduled. *)
Theorem reset_does_not_cancel_submission (p : Page) (r : nat)
    (f : option File) (data : SubmitData) :
  reachable p →
  find_request r (pending p) = Some (ReqSubmit f) →
  truthy_opt (sd_error data) = false →
  ∃ p', run p [EvReset; EvAnswer r (AnsSubmit (Parsed true data))] = Some p' ∧
        batchId p' = sd_batch_id data ∧
        timers p' = {[next_timer p]} ∧
        statusVisible p' = true.
Proof.
  intros Hreach Hfind Herr.
  pose proof (reachable_inv p Hreach) as Hinv.
  set (p1 := set_fileInput None (on_reset p)).
  assert (Hstep1 : step p EvReset = Some p1) by reflexivity.
  assert (Hreach1 : reachable p1) by (by apply (reachable_step p p1 EvReset)).
  destruct (on_reset_fields p Hinv) as (_ & _ & _ & _ & Hpend & Hnext & _).
  assert (Hfind1 : find_request r (pending p1) = Some (ReqSubmit f)).
  { change (pending p1) with (pending (on_reset p)). by rewrite Hpend. }
  destruct (submit_answer_step p1 r f (Parsed true data) Hreach1 Hfind1)
    as (p' & Hstep2 & _ & _ & Hyes & _).
  destruct Hyes as (Hb & Hv & Ht & _); [simpl; by rewrite Herr|].
  exists p'. split.
  - cbn [run]. rewrite Hstep1. by rewrite Hstep2.
  - change (next_timer p1) with (next_timer (on_reset p)) in Ht.
    rewrite Hnext in Ht. done.
Qed.

Lemma reset_does_not_cancel_submission_witness :
  ∃ p', run submitting_page [EvReset; submit_ok 0 "b1"] = Some p' ∧
        batchId p' = Some (lit "b1") ∧ timers p' = {[1]}.
Proof.
  assert (Hreach : reachable submitting_page)
    by (exists [EvSubmit]; vm_compute; reflexivity).
  destruct (reset_does_not_cancel_submission submitting_page 0 None
              {| sd_error := None; sd_batch_id := Some (lit "b1") |} Hreach)
    as (p' & Hrun & Hb & Ht & _).
  - vm_compute. reflexivity.
  - reflexivity.
  - exists p'. exact (conj Hrun (conj Hb Ht)).
Defined.

(** X12. A status answer that comes after a reset of the form and says
    ['completed'] makes the page ask for the results of job [null]. *)
Theorem late_completed_answer_after_reset (p : Page) (r : nat) (b : jsstring)
    (ok : bool) (status : StatusObj) :
  find_request r (pending p) = Some (ReqStatus b) →
  truthy_opt (st_error status) = false →
  st_status status = lit "completed" →
  ∃ p', run p [EvReset; EvAnswer r (AnsStatus (Parsed ok status))] = Some p' ∧
        sent p' = sent p ++ [ReqResults None] ∧
        batchId p' = None ∧ statusVisible p' = false.
Proof.
  intros Hfind Herr Hstatus.
  set (p1 := set_fileInput None (on_reset p)).
  assert (Hfields : pending (on_reset p) = pending p ∧
                    sent (on_reset p) = sent p ∧
                    statusVisible (on_reset p) = false ∧
                    statusInterval (on_reset p) =
                      (if truthy_timer (statusInterval p) then None
                       else statusInterval p)).
  { unfold on_reset, clearInterval. simpl.
    destruct (truthy_timer (statusInterval p)); [|done].
    by destruct (statusInterval p). }
  destruct Hfields as (Hpend & Hsent & Hvis & Hint).
  assert (Hfind1 : find_request r (pending p1) = Some (ReqStatus b)).
  { change (pending p1) with (pending (on_reset p)). by rewrite Hpend. }
  set (q := updateStatusDisplay status
              (set_pending (drop_request r (pending p1)) p1)).
  exists (showBatchResults (clearInterval (statusInterval q) q)).
  assert (Hq : sent q = sent p ∧ batchId q = None ∧
               statusVisible q = false ∧
               statusInterval q = statusInterval (on_reset p)).
  { split; [exact Hsent|]. split; [reflexivity|].
    split; [exact Hvis | reflexivity]. }
  destruct Hq as (Hqs & Hqb & Hqv & Hqi).
  assert (Hclr : sent (clearInterval (statusInterval q) q) = sent q ∧
                 batchId (clearInterval (statusInterval q) q) = batchId q ∧
                 statusInterval (clearInterval (statusInterval q) q)
                   = statusInterval q ∧
                 statusVisible (clearInterval (statusInterval q) q)
                   = statusVisible q)
    by (by destruct (statusInterval q)).
  destruct Hclr as (Hcs & Hcb & Hci & Hcv).
  split.
  - cbn [run].
    change (step p EvReset) with (Some p1).
    cbn [step]. rewrite Hfind1. unfold resume, checkBatchStatus_resume.
    rewrite Herr. by rewrite bool_decide_eq_true_2.
  - unfold showBatchResults, fetch.
    cbn [sent batchId statusInterval statusVisible set_sent set_next_request
         set_pending].
    rewrite Hcs, Hcb, Hcv, Hqs, Hqb, Hqv. done.
Qed.

Lemma late_completed_answer_after_reset_witness :
  ∃ p', run polling_page
          [EvReset; EvAnswer 1 (AnsStatus (Parsed true (status_of "completed" None)))]
          = Some p' ∧
        sent p' = sent polling_page ++ [ReqResults None].
Proof.
  destruct (late_completed_answer_after_reset polling_page 1 (lit "b1") true
              (status_of "completed" None))
    as (p' & Hrun & Hs & _).
  - vm_compute. reflexivity.
  - reflexivity.
  - reflexivity.
  - exists p'. exact (conj Hrun Hs).
Defined.

End BatchSubmission.

Section BatchViewsProperties.
Import Js Batch BatchViews.

Lemma split_lines_nonempty (content : jsstring) : split_lines content ≠ [].
Proof.
  destruct content as [|c content]; [done|]. simpl.
  destruct (c =? 10)%N; [done|]. by destruct (split_lines content).
Qed.

Lemma split_lines_shape (content first : jsstring) (rest : list jsstring) :
  split_lines content = first :: rest →
  ((10%N ∉ first) ∧
   ∃ after, content = first ++ after ∧ (after = [] ∨ ∃ a, after = 10%N :: a)) ∧
  (∀ line, line ∈ rest →
     (10%N ∉ line) ∧
     ∃ b after, content = (b ++ [10%N]) ++ line ++ after ∧
                (after = [] ∨ ∃ a, after = 10%N :: a)).
Proof.
  revert first rest. induction content as [|c content IH]; intros first rest Hs.
  - injection Hs as <- <-. split.
    + split; [apply not_elem_of_nil|]. exists []. split; [done | by left].
    + intros line Hin. by apply not_elem_of_nil in Hin.
  - simpl in Hs. destruct (N.eqb_spec c 10) as [->|Hne].
    + injection Hs as <- <-. split.
      * split; [apply not_elem_of_nil|]. exists (10%N :: content).
        split; [done|]. right. by eexists.
      * intros line Hin.
        destruct (split_lines content) as [|f r] eqn:Hc.
        { by apply not_elem_of_nil in Hin. }
        destruct (IH f r eq_refl) as [(Hf & after & Hcf & Ha) Hrest].
        apply elem_of_cons in Hin as [->|Hin].
        -- split; [done|]. exists [], after. by rewrite Hcf.
        -- destruct (Hrest line Hin) as (Hl & b & after' & Hcl & Ha').
           split; [done|]. exists (10%N :: b), after'. by rewrite Hcl.
    + destruct (split_lines content) as [|f r] eqn:Hc.
      { by destruct (split_lines_nonempty content). }
      injection Hs as <- <-.
      destruct (IH f r eq_refl) as [(Hf & after & Hcf & Ha) Hrest].
      split.
      * split.
        -- by apply not_elem_of_cons.
        -- exists after. by rewrite Hcf.
      * intros line Hin.
        destruct (Hrest line Hin) as (Hl & b & after' & Hcl & Ha').
        split; [done|]. exists (c :: b), after'. by rewrite Hcl.
Qed.

Lemma split_lines_line (content line : jsstring) :
  line ∈ split_lines content → (10%N ∉ line) ∧ is_line_of content line.
Proof.
  destruct (split_lines content) as [|first rest] eqn:Hs.
  { intros Hin. by apply not_elem_of_nil in Hin. }
  destruct (split_lines_shape content first rest Hs)
    as [(Hf & after & Hc & Ha) Hrest].
  intros [->|Hin]%elem_of_cons.
  - split; [done|]. exists [], after. split; [done|]. split; [by left | done].
  - destruct (Hrest line Hin) as (Hl & b & after' & Hcl & Ha').
    split; [done|]. exists (b ++ [10%N]), after'.
    split; [done|]. split; [right; by exists b | done].
Qed.

(** X14. The preview lists at most ten lines: the first of the lines
    of the file that are not blank, untrimmed, each one a whole line of
    the file; the number it gives for the others is the number of the
    remaining non-blank lines, and it is given only when there are more
    than ten. *)
Theorem preview_lists_first_ten_nonblank (content : jsstring) :
  let shown := (preview_lines content).1 in
  let more := (preview_lines content).2 in
  length shown ≤ 10 ∧
  shown `prefix_of` nonblank_lines content ∧
  Forall (fun line => trim line ≠ [] ∧ (10%N ∉ line) ∧
                      is_line_of content line)
         shown ∧
  length shown + default 0 more = length (nonblank_lines content) ∧
  (more = None ↔ length (nonblank_lines content) ≤ 10).
Proof.
  intros shown more. subst shown more.
  unfold preview_lines. cbn [fst snd].
  set (lines := nonblank_lines content).
  split; [rewrite length_take; apply Nat.le_min_l|].
  split; [apply prefix_take|].
  split.
  - apply Forall_forall. intros line Hin.
    apply subseteq_take in Hin. unfold lines, nonblank_lines in Hin.
    apply list_elem_of_filter in Hin as [Htrim Hline].
    destruct (split_lines_line content line Hline) as [Hlf Hof].
    split; [|done]. intros Heq. by rewrite Heq in Htrim.
  - rewrite length_take.
    destruct (Nat.ltb_spec 10 (length lines)) as [Hlt|Hle].
    + rewrite Nat.min_l by lia. simpl.
      split; [lia|]. split; [discriminate | lia].
    + rewrite Nat.min_r by lia. simpl. split; [lia|]. done.
Qed.

Lemma summary_partition (results : list ResultItem) :
  length (filter (fun r => truthy_opt (ri_error r) = false) results)
    + length (filter (fun r => truthy_opt (ri_error r) = true) results)
  = length results.
Proof.
  induction results as [|r results IH]; [done|].
  destruct (truthy_opt (ri_error r)) eqn:He.
  - rewrite filter_cons_False by (rewrite He; done).
    rewrite filter_cons_True by done. simpl. lia.
  - rewrite filter_cons_True by done.
    rewrite filter_cons_False by (rewrite He; done). simpl. lia.
Qed.

Lemma truthy_error_false (r : ResultItem) :
  truthy_opt (ri_error r) = false ↔ no_error r.
Proof.
  unfold no_error. destruct (ri_error r) as [[|c e]|]; simpl.
  - split; [by right | done].
  - split; [done | intros [H|H]; discriminate H].
  - split; [by left | done].
Qed.

Lemma truthy_error_true (r : ResultItem) :
  truthy_opt (ri_error r) = true ↔ ¬ no_error r.
Proof.
  rewrite <- truthy_error_false. by destruct (truthy_opt (ri_error r)).
Qed.

(** X15. In the summary, the successes are exactly the results without
    error or with an empty one, and the failures are all the others, so
    that the two numbers add up to the number of results; without a
    status the total shown is 0, whatever the number of results. *)
Theorem summary_counts_every_result (data : ResultsData) :
  let sm := showResultsSummary data in
  sm_success sm = length (filter no_error (default [] (rd_results data))) ∧
  sm_errors sm
    = length (filter (fun r => ¬ no_error r) (default [] (rd_results data))) ∧
  sm_success sm + sm_errors sm = length (default [] (rd_results data)) ∧
  (∀ r, r ∈ default [] (rd_results data) →
        (ri_error r = None ∨ ri_error r = Some []) →
        0 < sm_success sm) ∧
  (rd_status data = None → sm_total sm = 0%N).
Proof.
  intros sm. subst sm.
  unfold showResultsSummary. simpl.
  split; [f_equal; apply list_filter_iff, truthy_error_false|].
  split; [f_equal; apply list_filter_iff, truthy_error_true|].
  split; [apply summary_partition|].
  split.
  - intros r Hin Herr.
    assert (Hr : r ∈ filter (fun r => truthy_opt (ri_error r) = false)
                   (default [] (rd_results data))).
    { apply list_elem_of_filter. split; [|done]. by apply truthy_error_false. }
    destruct (filter _ _); [by apply elem_of_nil in Hr | simpl; lia].
  - by intros ->.
Qed.

Lemma on_file_change_accept (file : File) (p : Page) :
  ¬ too_large file → ¬ wrong_type file →
  on_file_change (Some file) p = set_readers (readers p ++ [file]) p.
Proof.
  unfold too_large, wrong_type, on_file_change. intros Hsize Htype.
  change (1024 * 1024)%N with 1048576%N.
  destruct (N.ltb_spec 1048576 (f_size file)) as [Hbig|_]; [done|].
  case_bool_decide as Ht; simpl; [done|].
  destruct (endsWith (f_name file) (lit ".txt")) eqn:Hn; [done|].
  by destruct Htype.
Qed.

Lemma on_file_change_reject (file : File) (p : Page) :
  too_large file ∨ wrong_type file →
  ∃ m, on_file_change (Some file) p = set_fileInput None (showError m p).
Proof.
  unfold too_large, wrong_type, on_file_change. intros Hbad.
  change (1024 * 1024)%N with 1048576%N.
  destruct (N.ltb_spec 1048576 (f_size file)) as [Hbig|Hsmall]; [by eexists|].
  destruct Hbad as [Hbig|[Ht Hn]]; [lia|].
  rewrite bool_decide_eq_false_2 by done. rewrite Hn. simpl. by eexists.
Qed.

(** X13. When a good file is selected and then one that is turned down,
    the file input ends up empty, and yet the preview that appears once
    the first file has been read is that of the first file. *)
Theorem rejected_file_keeps_stale_preview (p : Page) (a b : File)
    (content : jsstring) :
  readers p = [] →
  ¬ too_large a → ¬ wrong_type a →
  too_large b ∨ wrong_type b →
  ∃ p', run p [EvFileChange (Some a); EvFileChange (Some b);
               EvReaderLoad content] = Some p' ∧
        fileInput p' = None ∧
        filePreview p' = FileSelected a content ∧
        errorVisible p' = true ∧ sent p' = sent p.
Proof.
  intros Hreaders Hsize Htype Hbad.
  cbn [run step].
  rewrite (on_file_change_accept a) by done.
  destruct (on_file_change_reject b
              (set_fileInput (Some b)
                 (set_readers (readers (set_fileInput (Some a) p) ++ [a])
                    (set_fileInput (Some a) p))) Hbad) as [m ->].
  cbn [readers set_fileInput showError set_errorVisible set_errorMessage
       set_readers]. rewrite Hreaders. simpl.
  eexists. split; [reflexivity|]. repeat split.
Qed.

Lemma rejected_file_keeps_stale_preview_witness :
  ∃ p', run init
          [EvFileChange (Some {| f_size := 14; f_type := lit "text/plain";
                                 f_name := lit "codes.txt" |});
           EvFileChange (Some {| f_size := 2000000; f_type := lit "text/plain";
                                 f_name := lit "big.txt" |});
           EvReaderLoad (lit "005930")] = Some p' ∧
        fileInput p' = None ∧
        filePreview p' =
          FileSelected {| f_size := 14; f_type := lit "text/plain";
                          f_name := lit "codes.txt" |} (lit "005930").
Proof.
  destruct (rejected_file_keeps_stale_preview init
              {| f_size := 14; f_type := lit "text/plain";
                 f_name := lit "codes.txt" |}
              {| f_size := 2000000; f_type := lit "text/plain";
                 f_name := lit "big.txt" |}
              (lit "005930"))
    as (p' & Hrun & Hf & Hp & _).
  - reflexivity.
  - unfold too_large. simpl. lia.
  - intros [Hne _]. by apply Hne.
  - left. unfold too_large. simpl. lia.
  - exists p'. exact (conj Hrun (conj Hf Hp)).
Defined.

End BatchViewsProperties.

(** ** The installation scripts *)

Section Installers.
Import Install.

(** X16. The shell installer installs nothing and exits with status 1
    unless both [python3] and [pip3] are found; when they are, it runs
    the installation and the four [chmod] and ends normally, whether or
    not any of these commands succeeds. *)
Theorem install_sh_needs_python3_and_pip3 (env : Env) :
  exec env false install_sh =
    if found env "python3" then
      if found env "pip3" then
        ([PythonVersion; PipInstallRequirements;
          Chmod "day_stock_analysis.py"; Chmod "ai_chart_analysis.py";
          Chmod "integrated_stock_analysis.py"; Chmod "setup_api_key.py"],
         Finished)
      else ([PythonVersion], Exited 1)
    else ([], Exited 1).
Proof.
  unfold install_sh. cbn [exec].
  destruct (found env "python3"); [|reflexivity].
  destruct (found env "pip3"); reflexivity.
Qed.


End Installers.
